(** * Action queue and allocation lifecycle of the indexer: a shallow embedding

    The development follows the TypeScript sources:

    - [src/packages/indexer-common/src/indexer-management/allocations.ts]:
      [AllocationManager] with [allocate], [unallocate], [reallocate] and
      [collect], and the action types;
    - [src/unnamed/part_000]: the action resolvers [queueActions],
      [cancelActions], [approveActions], and [ActionManager] with
      [executeActions] and [takeAction];
    - [src/packages/indexer-agent/src/types.ts]: the command-line helpers
      [buildActionInput] and [validateActionInput].

    Asynchronous code that talks to collaborators (network monitor, staking
    contract, transaction manager, receipt collector, indexing-rule table) is
    written in a small free monad [Prog]: every [await]ed collaborator call is
    a [Call] node, [throw] is [Throw], and [try]/[catch] is [try_catch].  A
    handler over an abstract world interprets the calls and [run] records the
    calls that were made, in order.  Logger calls are left out: they never
    influence control flow. *)

From Stdlib Require Import ZArith List String Bool Lia Permutation.
Import ListNotations.
Open Scope string_scope.
Open Scope list_scope.
Open Scope Z_scope.

Set Implicit Arguments.

(** ** Data model *)

(** [SubgraphDeploymentID] of common-ts: the bytes32 value (what [toString]
    prints) and its base58 rendering [ipfsHash]. *)
Record SubgraphDeploymentID := mkDeployment {
  bytes32 : string;
  ipfsHash : string
}.

Definition deployment_toString (d : SubgraphDeploymentID) : string := bytes32 d.

Record SubgraphDeployment := mkSubgraphDeployment {
  sd_id : SubgraphDeploymentID;
  stakedTokens : Z;
  signalledTokens : Z
}.

Inductive AllocationStatus := Null | Active | Closed | Finalized | Claimed.

Record Allocation := mkAllocation {
  alloc_id : string;
  subgraphDeployment : SubgraphDeployment;
  allocatedTokens : Z;
  createdAtEpoch : Z;
  closedAtEpoch : option Z;
  createdAtBlockHash : string
}.

(** [enum ActionType]: a string enum; at run time [action.type] is a string
    compared with [===], and [takeAction] has no final [else], so the type is
    kept at its run-time representation. *)
Definition ActionType := string.

Module ActionType.
Definition ALLOCATE : ActionType := "allocate".
Definition UNALLOCATE : ActionType := "unallocate".
Definition REALLOCATE : ActionType := "reallocate".
Definition COLLECT : ActionType := "collect".

(** The members of the enum. *)
Definition mapped (t : ActionType) : bool :=
  ((t =? ALLOCATE) || (t =? UNALLOCATE)
   || (t =? REALLOCATE) || (t =? COLLECT))%string.
End ActionType.

Inductive ActionStatus :=
  QUEUED | APPROVED | PENDING | SUCCESS | FAILED | CANCELED.

Definition ActionStatus_eqb (a b : ActionStatus) : bool :=
  match a, b with
  | QUEUED, QUEUED | APPROVED, APPROVED | PENDING, PENDING
  | SUCCESS, SUCCESS | FAILED, FAILED | CANCELED, CANCELED => true
  | _, _ => false
  end.

(** [interface ActionInput]; an optional field that is absent is [None]. *)
Record ActionInput := mkActionInput {
  in_type : ActionType;
  in_deploymentID : option string;
  in_allocationID : option string;
  in_amount : option string;
  in_poi : option string;
  in_force : option bool;
  in_source : string;
  in_reason : string;
  in_status : ActionStatus;
  in_priority : option Z
}.

(** A row of the [Action] table; a [null] column is [None]. *)
Record Action := mkAction {
  id : Z;
  type : ActionType;
  deploymentID : option string;
  allocationID : option string;
  amount : option string;
  poi : option string;
  force : option bool;
  source : string;
  reason : string;
  priority : option Z;
  transaction : option string;
  status : ActionStatus
}.

Definition set_status (s : ActionStatus) (a : Action) : Action :=
  mkAction (id a) (type a) (deploymentID a) (allocationID a) (amount a) (poi a)
           (force a) (source a) (reason a) (priority a) (transaction a) s.

(** ** Errors *)

Inductive IndexerErrorCode := IE010 | IE013 | IE014 | IE015.

(** One constructor per [throw] site, carrying the values interpolated in the
    message; [External] is an error raised by a collaborator or a library
    call; [IndexerError] is [indexerError(code, cause)]. *)
Inductive Error :=
| External (msg : string)
| MissingRequiredParams (missing : list string)
| NoActionsUpdated (target : ActionStatus)
| ActiveAllocationExists (deployment : string)
| NegativeAmount (amount : Z)
| ZeroAmount (amount : Z)
| InsufficientFreeStake (amount freeStake : Z)
| InsufficientFreeStakeRealloc (amount freeStake released : Z)
| AllocationExistsOnchain (allocation : string)
| NotCreated (receipt : string)
| NeverMined
| CloseNeverMined
| TooYoungToClose (allocation : string) (nextEpoch : Z)
| AlreadyClosed
| CouldNotClose (allocation : string) (receipt : string)
| NoActiveAllocation (allocationID : string)
| IndexerError (code : IndexerErrorCode) (cause : Error).

Definition result (A : Type) : Type := (Error + A)%type.

Definition is_error {A} (r : result A) : bool :=
  match r with inl _ => true | inr _ => false end.

(** ** Collaborator calls *)

Inductive ChainEvent :=
| AllocationCreated (allocationID : string) (tokens epoch : Z)
| AllocationClosed (allocationID : string) (tokens epoch : Z)
| RewardsAssigned (rewards : Z)
| OtherLog.

(** What [TransactionManager.executeTransaction] resolves to. *)
Inductive TxResult :=
| Paused
| Unauthorized
| Receipt (events : list ChainEvent) (transactionHash : string).

(** The contract method handed to [executeTransaction] (gas estimate and
    send are the same method with the same arguments). *)
Inductive TxCall :=
| AllocateFrom (indexer deployment : string) (tokens : Z)
               (allocationID : string) (proof : string)
| CloseAllocation (allocationID poi : string)
| CloseAndAllocate (oldAllocation poi indexer deployment : string) (tokens : Z)
                   (newAllocation : string) (proof : string).

Inductive IndexingDecisionBasis := ALWAYS | OFFCHAIN | RULES | NEVER.

Record IndexingRule := mkRule {
  identifier : string;
  rule_amount : option string;
  decisionBasis : IndexingDecisionBasis
}.

(** The awaited calls of [AllocationManager], indexed by what they resolve to. *)
Inductive Ext : Type -> Type :=
| MonitorAllocations (st : AllocationStatus) : Ext (list Allocation)
| MonitorAllocation (allocationID : string) : Ext Allocation
| ResolvePOI (a : Allocation) (poi : option string) (force : bool) : Ext string
| SubgraphActiveAllocations (indexer : string) : Ext (list Allocation)
| CurrentEpoch : Ext Z
| GetIndexerCapacity (indexer : string) : Ext Z
| GetAllocationState (allocationID : string) : Ext Z
| SubgraphEnsure (name : string) (d : SubgraphDeploymentID)
                 (indexNode : option string) : Ext unit
| AllocationIdProof (signer indexer allocationID : string) : Ext string
| ExecuteTransaction (tx : TxCall) : Ext TxResult
| RememberAllocations (ids : list string) : Ext unit
| CollectReceipts (a : Allocation) : Ext bool
| RuleUpsert (r : IndexingRule) : Ext unit
| RuleFindOne (ident : string) : Ext (option IndexingRule).

(** A call as it appears in a trace. *)
Inductive CallRec := CallOf : forall X, Ext X -> CallRec.
Arguments CallOf {X} _.

(** Reads and writes against the chain (epoch manager and staking contract). *)
Definition is_chain_call (c : CallRec) : bool :=
  match c with
  | CallOf CurrentEpoch => true
  | CallOf (GetIndexerCapacity _) => true
  | CallOf (GetAllocationState _) => true
  | CallOf (ExecuteTransaction _) => true
  | CallOf _ => false
  end.

Definition is_transaction (c : CallRec) : bool :=
  match c with
  | CallOf (ExecuteTransaction _) => true
  | CallOf _ => false
  end.

Definition is_close_transaction (c : CallRec) : bool :=
  match c with
  | CallOf (ExecuteTransaction (CloseAllocation _ _)) => true
  | CallOf _ => false
  end.

(** Calls that change a store: the indexing-rule table, the receipt
    collector's bookkeeping, the index node assignment. *)
Definition is_store_mutation (c : CallRec) : bool :=
  match c with
  | CallOf (RuleUpsert _) => true
  | CallOf (RememberAllocations _) => true
  | CallOf (CollectReceipts _) => true
  | CallOf (SubgraphEnsure _ _ _) => true
  | CallOf _ => false
  end.

Definition side_effect_free (c : CallRec) : bool :=
  negb (is_chain_call c) && negb (is_transaction c)
  && negb (is_store_mutation c).

(** ** The program monad *)

Inductive Prog (R : Type) : Type :=
| Ret (r : R)
| Throw (e : Error)
| Call (X : Type) (c : Ext X) (k : result X -> Prog R).
Arguments Throw {R} e.
Arguments Call {R X} c k.

Fixpoint bind {A B} (p : Prog A) (f : A -> Prog B) : Prog B :=
  match p with
  | Ret a => f a
  | Throw e => Throw e
  | Call c k => Call c (fun r => bind (k r) f)
  end.

(** [try { p } catch (error) { h error }] *)
Fixpoint try_catch {A} (p : Prog A) (h : Error -> Prog A) : Prog A :=
  match p with
  | Ret a => Ret a
  | Throw e => h e
  | Call c k => Call c (fun r => try_catch (k r) h)
  end.

(** [await c]: a rejected promise is thrown. *)
Definition await {X} (c : Ext X) : Prog X :=
  Call c (fun r => match r with inl e => Throw e | inr x => Ret x end).

(** A synchronous library call that may throw. *)
Definition lift {A} (r : result A) : Prog A :=
  match r with inl e => Throw e | inr a => Ret a end.

Declare Scope prog_scope.
Delimit Scope prog_scope with prog.
Notation "x <- p ;; q" := (bind p (fun x => q))
  (at level 61, p at next level, right associativity) : prog_scope.
Notation "' pat <- p ;; q" := (bind p (fun x => match x with pat => q end))
  (at level 61, pat pattern, p at next level, right associativity) : prog_scope.
Notation "p ;;; q" := (bind p (fun _ => q))
  (at level 61, right associativity) : prog_scope.

(** The collaborators: each call answers or rejects, and moves the world. *)
Definition Handler (W : Type) : Type :=
  forall X, Ext X -> W -> result X * W.

Section Run.
Context {W : Type} (h : Handler W).

(** Runs a program: the calls made, the outcome, the world afterwards. *)
Fixpoint run {R} (p : Prog R) (w : W) : list CallRec * result R * W :=
  match p with
  | Ret r => ([], inr r, w)
  | Throw e => ([], inl e, w)
  | Call c k =>
      let '(r, w1) := h c w in
      let '(tr, res, w2) := run (k r) w1 in
      (CallOf c :: tr, res, w2)
  end.

Definition trace_of {R} (o : list CallRec * result R * W) : list CallRec :=
  fst (fst o).
Definition outcome_of {R} (o : list CallRec * result R * W) : result R :=
  snd (fst o).
Definition world_of {R} (o : list CallRec * result R * W) : W := snd o.
End Run.

(** ** Library functions

    Synchronous functions of ethers and common-ts that the code calls; they
    are taken as a record so that the programs can be run on concrete data. *)
Record Lib := mkLib {
  (** [BigNumber.from(x)]: throws on [null] and on a malformed string. *)
  BigNumber_from : option string -> result Z;
  (** [new SubgraphDeploymentID(x)]: throws on an invalid identifier. *)
  SubgraphDeploymentID_new : option string -> result SubgraphDeploymentID;
  (** [uniqueAllocationID(mnemonic, epoch, deployment, existingIDs)]:
      the signer key and the allocation id. *)
  uniqueAllocationID :
    string -> Z -> SubgraphDeploymentID -> list string -> string * string;
  (** [amount.toString()] of a [BigNumber]. *)
  BigNumber_toString : Z -> string;
  (** [toAddress(x)]: the checksummed address; throws on a string that is
      not an address. *)
  toAddress : string -> result string;
  formatGRT : Z -> string
}.

(** ** AllocationManager *)

Record CreateAllocationResult := mkCreateResult {
  cr_deployment : string;
  cr_allocation : string;
  cr_allocatedTokens : string
}.

Record CloseAllocationResult := mkCloseResult {
  cl_allocation : string;
  cl_allocatedTokens : string;
  cl_indexingRewards : string;
  cl_receiptsWorthCollecting : bool
}.

Record ReallocateAllocationResult := mkReallocResult {
  re_closedAllocation : string;
  re_indexingRewardsCollected : string;
  re_receiptsWorthCollecting : bool;
  re_createdAllocation : string;
  re_createdAllocationStake : string
}.

(** [events.find(event => event.topics.includes(getEventTopic(name)))]
    followed by [decodeEventLog(name, ...)], for the three event names. *)
Definition find_created (events : list ChainEvent) : option (string * Z * Z) :=
  match find (fun e => match e with
                       | AllocationCreated _ _ _ => true
                       | _ => false
                       end) events with
  | Some (AllocationCreated a t e) => Some (a, t, e)
  | _ => None
  end.

Definition find_closed (events : list ChainEvent) : option (string * Z * Z) :=
  match find (fun e => match e with
                       | AllocationClosed _ _ _ => true
                       | _ => false
                       end) events with
  | Some (AllocationClosed a t e) => Some (a, t, e)
  | _ => None
  end.

Definition find_rewards (events : list ChainEvent) : Z :=
  match find (fun e => match e with
                       | RewardsAssigned _ => true
                       | _ => false
                       end) events with
  | Some (RewardsAssigned r) => r
  | _ => 0
  end.

Section AllocationManager.
Variable lib : Lib.
(** [this.indexer] and [this.transactionManager.wallet.mnemonic.phrase]. *)
Variable indexer : string.
Variable mnemonic : string.

Local Open Scope prog_scope.

Definition allocate (deployment : SubgraphDeploymentID) (amount : Z)
           (indexNode : option string) : Prog CreateAllocationResult :=
  activeAllocations <- await (MonitorAllocations Active) ;;
  match find (fun a => (deployment_toString (sd_id (subgraphDeployment a))
                          =? deployment_toString deployment)%string)
             activeAllocations with
  | Some allocation =>
      Throw (ActiveAllocationExists
               (ipfsHash (sd_id (subgraphDeployment allocation))))
  | None =>
    if amount <? 0 then Throw (NegativeAmount amount) else
    if amount =? 0 then Throw (ZeroAmount amount) else
    (* try { ... } catch (error) { log; throw error } *)
    try_catch
      (currentEpoch <- await CurrentEpoch ;;
       freeStake <- await (GetIndexerCapacity indexer) ;;
       if freeStake <? amount
       then Throw (IndexerError IE013 (InsufficientFreeStake amount freeStake))
       else
       await (SubgraphEnsure
                (substring 0 23 (ipfsHash deployment) ++ "/"
                 ++ substring 23 (String.length (ipfsHash deployment) - 23)
                              (ipfsHash deployment))%string
                deployment indexNode) ;;;
       let '(allocationSigner, allocationId) :=
         uniqueAllocationID lib mnemonic currentEpoch deployment
                            (map alloc_id activeAllocations) in
       state <- await (GetAllocationState allocationId) ;;
       if negb (state =? 0) then Throw (AllocationExistsOnchain allocationId) else
       proof <- await (AllocationIdProof allocationSigner indexer allocationId) ;;
       receipt <- await (ExecuteTransaction
                           (AllocateFrom indexer (bytes32 deployment) amount
                                         allocationId proof)) ;;
       match receipt with
       | Paused => Throw (NotCreated "Network paused")
       | Unauthorized => Throw (NotCreated "Operator not authorized")
       | Receipt events _ =>
           match find_created events with
           | None => Throw (IndexerError IE014 NeverMined)
           | Some (createdID, _, _) =>
               await (RememberAllocations [createdID]) ;;;
               await (RuleUpsert
                        (mkRule (ipfsHash deployment)
                                (Some (BigNumber_toString lib amount))
                                ALWAYS)) ;;;
               _updatedRule <- await (RuleFindOne (ipfsHash deployment)) ;;
               Ret (mkCreateResult (ipfsHash deployment) createdID
                                   (formatGRT lib amount))
           end
       end)
      (fun error => Throw error)
  end.

Definition unallocate (allocationID : string) (poi : option string)
           (force : bool) : Prog CloseAllocationResult :=
  allocation <- await (MonitorAllocation allocationID) ;;
  try_catch
    (currentEpoch <- await CurrentEpoch ;;
     if createdAtEpoch allocation =? currentEpoch
     then Throw (TooYoungToClose (alloc_id allocation) (currentEpoch + 1))
     else
     poi' <- await (ResolvePOI allocation poi force) ;;
     state <- await (GetAllocationState (alloc_id allocation)) ;;
     if negb (state =? 1) then Throw AlreadyClosed else
     receipt <- await (ExecuteTransaction
                         (CloseAllocation (alloc_id allocation) poi')) ;;
     match receipt with
     | Paused => Throw (CouldNotClose (alloc_id allocation) "paused")
     | Unauthorized => Throw (CouldNotClose (alloc_id allocation) "unauthorized")
     | Receipt events _ =>
         match find_closed events with
         | None => Throw (IndexerError IE014 CloseNeverMined)
         | Some (closedID, closedTokens, _) =>
             let rewardsAssigned := find_rewards events in
             isCollectingQueryFees <- await (CollectReceipts allocation) ;;
             await (RuleUpsert
                      (mkRule (ipfsHash (sd_id (subgraphDeployment allocation)))
                              None OFFCHAIN)) ;;;
             _updatedRule <-
               await (RuleFindOne
                        (ipfsHash (sd_id (subgraphDeployment allocation)))) ;;
             Ret (mkCloseResult closedID (formatGRT lib closedTokens)
                                (formatGRT lib rewardsAssigned)
                                isCollectingQueryFees)
         end
     end)
    (fun error => Throw (IndexerError IE015 error)).

Definition reallocate (allocationID : string) (poi : option string)
           (amount : Z) (force : bool) : Prog ReallocateAllocationResult :=
  activeAllocations <-
    try_catch (await (SubgraphActiveAllocations indexer))
              (fun error => Throw (IndexerError IE010 error)) ;;
  (* outside both try blocks: a malformed id is thrown as it is *)
  allocationAddress <- lift (toAddress lib allocationID) ;;
  match find (fun a => (alloc_id a =? allocationAddress)%string)
             activeAllocations with
  | None => Throw (NoActiveAllocation allocationID)
  | Some allocation =>
    try_catch
      (currentEpoch <- await CurrentEpoch ;;
       if createdAtEpoch allocation =? currentEpoch
       then Throw (TooYoungToClose (alloc_id allocation) (currentEpoch + 1))
       else
       allocationPOI <- await (ResolvePOI allocation poi force) ;;
       state <- await (GetAllocationState (alloc_id allocation)) ;;
       if negb (state =? 1) then Throw AlreadyClosed else
       if amount <? 0 then Throw (NegativeAmount amount) else
       if amount =? 0 then Throw (ZeroAmount amount) else
       freeStake <- await (GetIndexerCapacity indexer) ;;
       let postCloseFreeStake := freeStake + allocatedTokens allocation in
       if postCloseFreeStake <? amount
       then Throw (IndexerError IE013
                     (InsufficientFreeStakeRealloc
                        amount freeStake (allocatedTokens allocation)))
       else
       let '(allocationSigner, newAllocationId) :=
         uniqueAllocationID lib mnemonic currentEpoch
                            (sd_id (subgraphDeployment allocation))
                            (map alloc_id activeAllocations) in
       newAllocationState <- await (GetAllocationState newAllocationId) ;;
       if negb (newAllocationState =? 0)
       then Throw (AllocationExistsOnchain newAllocationId) else
       proof <- await (AllocationIdProof allocationSigner indexer newAllocationId) ;;
       receipt <- await (ExecuteTransaction
                           (CloseAndAllocate
                              (alloc_id allocation) allocationPOI indexer
                              (bytes32 (sd_id (subgraphDeployment allocation)))
                              amount newAllocationId proof)) ;;
       match receipt with
       | Paused => Throw (CouldNotClose newAllocationId "paused")
       | Unauthorized => Throw (CouldNotClose newAllocationId "unauthorized")
       | Receipt events _ =>
           match find_created events with
           | None => Throw (IndexerError IE014 NeverMined)
           | Some (createdID, createdTokens, _) =>
               match find_closed events with
               | None => Throw (IndexerError IE014 CloseNeverMined)
               | Some (closedID, _, _) =>
                   let rewardsAssigned := find_rewards events in
                   isCollectingQueryFees <- await (CollectReceipts allocation) ;;
                   await (RuleUpsert
                            (mkRule
                               (ipfsHash (sd_id (subgraphDeployment allocation)))
                               (Some (BigNumber_toString lib amount))
                               ALWAYS)) ;;;
                   _updatedRule <-
                     await (RuleFindOne
                              (ipfsHash (sd_id (subgraphDeployment allocation)))) ;;
                   Ret (mkReallocResult closedID (formatGRT lib rewardsAssigned)
                                        isCollectingQueryFees createdID
                                        (formatGRT lib createdTokens))
               end
           end
       end)
      (fun error => Throw error)
  end.

Definition collect (allocationID : string) : Prog bool :=
  allocation <- await (MonitorAllocation allocationID) ;;
  await (CollectReceipts allocation).

End AllocationManager.

(** ** The Action table

    The table is a list of rows in the order [findAll] returns them, with the
    sequence that feeds the auto-incremented primary key.  Table operations
    are taken to succeed (the database is available). *)
Record Store := mkStore {
  rows : list Action;
  nextId : Z
}.

Definition id_in (ids : list Z) (a : Action) : bool :=
  existsb (Z.eqb (id a)) ids.

(** [Action.findAll({ where: { status } })] *)
Definition findAll_status (s : ActionStatus) (db : Store) : list Action :=
  filter (fun a => ActionStatus_eqb (status a) s) (rows db).

(** [Action.update({ status }, { where: { id: ids }, returning: true })]:
    the updated rows and the table afterwards.  No query of the code has an
    [order] clause, and the database writes the new version of an updated row
    behind the rows it has: the rows the update leaves alone keep their
    order, and the updated rows are read back after them. *)
Definition update_status (s : ActionStatus) (ids : list Z) (db : Store)
  : list Action * Store :=
  (map (set_status s) (filter (id_in ids) (rows db)),
   mkStore (filter (fun a => negb (id_in ids a)) (rows db)
            ++ map (set_status s) (filter (id_in ids) (rows db)))
           (nextId db)).

Definition row_of_input (i : Z) (a : ActionInput) : Action :=
  mkAction i (in_type a) (in_deploymentID a) (in_allocationID a) (in_amount a)
           (in_poi a) (in_force a) (in_source a) (in_reason a) (in_priority a)
           None (in_status a).

Fixpoint number_from (i : Z) (actions : list ActionInput) : list Action :=
  match actions with
  | [] => []
  | a :: rest => row_of_input i a :: number_from (i + 1) rest
  end.

(** [Action.bulkCreate(actions, { returning: true })] *)
Definition bulkCreate (actions : list ActionInput) (db : Store)
  : list Action * Store :=
  let created := number_from (nextId db) actions in
  (created,
   mkStore (rows db ++ created) (nextId db + Z.of_nat (List.length actions))).

(** ** Resolvers *)

Definition queueActions (actions : list ActionInput) (db : Store)
  : result (list Action) * Store :=
  let '(created, db') := bulkCreate actions db in (inr created, db').

Definition cancelActions (actionIDs : list Z) (db : Store)
  : result (list Action) * Store :=
  let '(canceledActions, db') := update_status CANCELED actionIDs db in
  if (List.length canceledActions =? 0)%nat
  then (inl (NoActionsUpdated CANCELED), db')
  else (inr canceledActions, db').

Definition approveActions (actionIDs : list Z) (db : Store)
  : result (list Action) * Store :=
  let '(updatedActions, db') := update_status APPROVED actionIDs db in
  if (List.length updatedActions =? 0)%nat
  then (inl (NoActionsUpdated APPROVED), db')
  else (inr updatedActions, db').

(** ** ActionManager *)

(** The four operations of the injected [allocationManager]. *)
Record AllocationManagerOps := mkOps {
  am_allocate : SubgraphDeploymentID -> Z -> option string
                -> Prog CreateAllocationResult;
  am_unallocate : string -> option string -> bool -> Prog CloseAllocationResult;
  am_reallocate : string -> option string -> Z -> bool
                  -> Prog ReallocateAllocationResult;
  am_collect : string -> Prog bool
}.

Definition AllocationManager (lib : Lib) (indexer mnemonic : string)
  : AllocationManagerOps :=
  mkOps (allocate lib indexer mnemonic) (unallocate lib)
        (reallocate lib indexer mnemonic) collect.

(** What the promise of [takeAction] resolves to ([Promise<any>]). *)
Inductive TakeResult :=
| Created (r : CreateAllocationResult)
| ClosedResult (r : CloseAllocationResult)
| Reallocated (r : ReallocateAllocationResult)
| Collected (b : bool)
| Undefined.

(** [x!]: erased at run time, so a [null] reaches the callee; it is passed on
    as the empty string, which names no allocation. *)
Definition non_null (x : option string) : string :=
  match x with Some s => s | None => "" end.

(** [x === null ? false : x] *)
Definition default_false (x : option bool) : bool :=
  match x with Some b => b | None => false end.

(** [Array.prototype.concat]: a new array, the receiver is left as it is. *)
Definition Array_concat {A} (xs ys : list A) : list A := xs ++ ys.

(** One run of a loop body: the action and whether its dispatch resolved. *)
Definition Dispatch : Type := (Action * bool)%type.

Section ActionManager.
Variable lib : Lib.
Variable allocationManager : AllocationManagerOps.
Context {W : Type} (h : Handler W).

Local Open Scope prog_scope.

Definition takeAction (action : Action) : Prog TakeResult :=
  if (type action =? ActionType.ALLOCATE)%string then
    d <- lift (SubgraphDeploymentID_new lib (deploymentID action)) ;;
    a <- lift (BigNumber_from lib (amount action)) ;;
    r <- am_allocate allocationManager d a None ;;
    Ret (Created r)
  else if (type action =? ActionType.UNALLOCATE)%string then
    r <- am_unallocate allocationManager (non_null (allocationID action))
                       (poi action) (default_false (force action)) ;;
    Ret (ClosedResult r)
  else if (type action =? ActionType.REALLOCATE)%string then
    a <- lift (BigNumber_from lib (amount action)) ;;
    r <- am_reallocate allocationManager (non_null (allocationID action))
                       (poi action) a (default_false (force action)) ;;
    Ret (Reallocated r)
  else if (type action =? ActionType.COLLECT)%string then
    r <- am_collect allocationManager (non_null (allocationID action)) ;;
    Ret (Collected r)
  else Ret Undefined.

(** Whether [await this.takeAction(action)] resolves in world [w]. *)
Definition dispatch_ok (action : Action) (w : W) : bool :=
  negb (is_error (outcome_of (run h (takeAction action) w))).

(** The body of both [for (const action of ...)] loops:
    [try { takeAction; update SUCCESS } catch { update FAILED }], each
    followed by [updatedActions.concat(updatedAction)], whose value is
    dropped.  The last component lists the dispatches, in order. *)
Fixpoint executeLoop (actions : list Action) (updatedActions : list Action)
         (db : Store) (w : W) : list Action * Store * W * list Dispatch :=
  match actions with
  | [] => (updatedActions, db, w, [])
  | action :: rest =>
      let '(_, res, w1) := run h (takeAction action) w in
      let '(updatedAction, db1) :=
        match res with
        | inr _ => update_status SUCCESS [id action] db
        | inl _ => update_status FAILED [id action] db
        end in
      let _ := Array_concat updatedActions updatedAction in
      let '(out, db2, w2, log) := executeLoop rest updatedActions db1 w1 in
      (out, db2, w2, (action, negb (is_error res)) :: log)
  end.

Record Executed := mkExecuted {
  returned : list Action;
  store_after : Store;
  world_after : W;
  phase1 : list Dispatch;
  phase2 : list Dispatch
}.

Definition executeActions (actionIDs : list Z) (force : bool)
           (db : Store) (w : W) : Executed :=
  let updatedActions : list Action := [] in
  let '(updatedActions1, db1, w1, log1) :=
    if negb force
    then executeLoop (findAll_status APPROVED db) updatedActions db w
    else (updatedActions, db, w, []) in
  let queuedActionsSpecified :=
    filter (id_in actionIDs) (findAll_status QUEUED db1) in
  let '(updatedActions2, db2, w2, log2) :=
    executeLoop queuedActionsSpecified updatedActions1 db1 w1 in
  mkExecuted updatedActions2 db2 w2 log1 log2.

End ActionManager.

(** ** The command-line helpers ([indexer-cli/src/actions.ts]) *)

Record GenericActionInputParams := mkParams {
  target : option string;
  param1 : option string;
  param2 : option string;
  param3 : option string
}.

(** [{ ...actionParams } as Record<string, unknown>] *)
Definition params_record (p : GenericActionInputParams)
  : list (string * option string) :=
  [("target", target p); ("param1", param1 p);
   ("param2", param2 p); ("param3", param3 p)].

(** [x === 'true'] *)
Definition is_true_string (x : option string) : bool :=
  match x with Some s => (s =? "true")%string | None => false end.

Definition requiredFields (type : ActionType) : list string :=
  if (type =? ActionType.ALLOCATE)%string then [] ++ ["target"; "param1"]
  else if (type =? ActionType.UNALLOCATE)%string then [] ++ ["target"]
  else if (type =? ActionType.REALLOCATE)%string then [] ++ ["target"; "param1"]
  else if (type =? ActionType.COLLECT)%string then [] ++ ["target"]
  else [].

Section Actions.
(** [validateRequiredParams] of [command-helpers], which the functions
    below call. *)
Variable validateRequiredParams :
  list (string * option string) -> list string -> result unit.

Definition validateActionInput (type : ActionType)
           (actionParams : GenericActionInputParams) : result unit :=
  validateRequiredParams (params_record actionParams) (requiredFields type).

(** The [switch] has no [default]: for a type outside the enum the function
    resolves to [undefined], which is [None] here. *)
Definition buildActionInput (type : ActionType)
           (actionParams : GenericActionInputParams)
           (source reason : string) (status : ActionStatus)
           (priority : Z) : result (option ActionInput) :=
  match validateActionInput type actionParams with
  | inl e => inl e
  | inr _ =>
    if (type =? ActionType.ALLOCATE)%string then
      inr (Some (mkActionInput type (target actionParams) None
                               (param1 actionParams) None None
                               source reason status (Some priority)))
    else if (type =? ActionType.UNALLOCATE)%string then
      inr (Some (mkActionInput type None (target actionParams) None
                               (param1 actionParams)
                               (Some (is_true_string (param2 actionParams)))
                               source reason status (Some priority)))
    else if (type =? ActionType.REALLOCATE)%string then
      inr (Some (mkActionInput type None (target actionParams)
                               (param1 actionParams) (param2 actionParams)
                               (Some (is_true_string (param3 actionParams)))
                               source reason status (Some priority)))
    else if (type =? ActionType.COLLECT)%string then
      inr (Some (mkActionInput type None (target actionParams) None None None
                               source reason status (Some priority)))
    else inr None
  end.
End Actions.

(** Modelled from the spec: when a field counts as missing for
    [validateRequiredParams] of [indexer-cli/src/command-helpers.ts], which is
    not among the sources: it is not set in the parameters. *)
Definition is_missing (params : list (string * option string)) (field : string)
  : bool :=
  match find (fun kv => (fst kv =? field)%string) params with
  | Some (_, Some _) => false
  | _ => true
  end.

(** Modelled from the spec: [validateRequiredParams] of
    [indexer-cli/src/command-helpers.ts], which is not among the sources.  The
    spec has it fail with a validation error listing every missing required
    field, and succeed when none is missing. *)
Definition validateRequiredParams_spec
           (params : list (string * option string)) (required : list string)
  : result unit :=
  match filter (is_missing params) required with
  | [] => inr tt
  | missing => inl (MissingRequiredParams missing)
  end.

(** The calls [reallocate] makes up to and including the capacity read. *)
Definition reallocate_checks (indexer : string) (allocation : Allocation)
           (poi : option string) (force : bool) : list CallRec :=
  [CallOf (SubgraphActiveAllocations indexer);
   CallOf CurrentEpoch;
   CallOf (ResolvePOI allocation poi force);
   CallOf (GetAllocationState (alloc_id allocation));
   CallOf (GetIndexerCapacity indexer)].


(** ** Vocabulary of the statements

    What a batch leaves behind in the table, and the dispatches of a batch
    taken one after the other. *)

Definition outcome_status (ok : bool) : ActionStatus :=
  if ok then SUCCESS else FAILED.

(** The row update of one dispatch, and of a list of dispatches in order. *)
Definition mark (d : Dispatch) (r : Action) : Action :=
  if id_in [id (fst d)] r then set_status (outcome_status (snd d)) r else r.

Definition mark_all (log : list Dispatch) (r : Action) : Action :=
  fold_left (fun r d => mark d r) log r.

Definition dispatched_ids (log : list Dispatch) : list Z :=
  map (fun d => id (fst d)) log.

(** The table after the update of one dispatch, and of a list of dispatches
    in order: the rows of the dispatched id go behind the others. *)
Definition settle (d : Dispatch) (l : list Action) : list Action :=
  filter (fun a => negb (id_in [id (fst d)] a)) l
  ++ map (set_status (outcome_status (snd d))) (filter (id_in [id (fst d)]) l).

Definition settle_all (log : list Dispatch) (l : list Action) : list Action :=
  fold_left (fun l d => settle d l) log l.

Section Outcomes.
Variable lib : Lib.
Variable allocationManager : AllocationManagerOps.
Context {W : Type} (h : Handler W).

(** Each action of a batch dispatched in turn, each in the world its
    predecessors left, whatever their outcome. *)
Fixpoint outcomes_in_turn (batch : list Action) (w : W) : list Dispatch * W :=
  match batch with
  | [] => ([], w)
  | a :: rest =>
      let w1 := world_of (run h (takeAction lib allocationManager a) w) in
      let '(log, w') := outcomes_in_turn rest w1 in
      ((a, dispatch_ok lib allocationManager h a w) :: log, w')
  end.
End Outcomes.

(** ** A concrete environment

    A small world on which the programs can be evaluated: one active
    allocation of 500 tokens created at epoch 7, the chain at epoch 9 with a
    free stake of 1000 tokens.  The world counts the calls it has answered. *)
Module Sample.
Definition deploymentA : SubgraphDeploymentID := mkDeployment "0xaa" "QmA".
Definition deploymentB : SubgraphDeploymentID := mkDeployment "0xbb" "QmB".

Definition allocationA : Allocation :=
  mkAllocation "0xa1" (mkSubgraphDeployment deploymentA 0 0) 500 7 None "0xh".

Definition lib : Lib :=
  mkLib (fun x => match x with
                  | Some "10000" => inr 10000
                  | Some "0" => inr 0
                  | Some "27000" => inr 27000
                  | Some "1500" => inr 1500
                  | _ => inl (External "invalid BigNumber string")
                  end)
        (fun x => match x with
                  | Some "QmA" => inr deploymentA
                  | Some "QmB" => inr deploymentB
                  | _ => inl (External "Invalid subgraph deployment ID")
                  end)
        (fun _ _ _ _ => ("signer", "0xnew"))
        (fun _ => "tokens")
        (fun s => if (s =? "0xa1")%string then inr s
                  else if (s =? "0x0000000000000000000000000000000000000001")
                            %string then inr s
                  else inl (External "invalid address"))
        (fun _ => "GRT").

Definition handler (epoch : Z) : Handler nat :=
  fun X (c : Ext X) (n : nat) =>
    (match c in Ext X return result X with
     | MonitorAllocations _ => inr [allocationA]
     | MonitorAllocation i =>
         if (i =? "0xa1")%string then inr allocationA
         else inl (External "No active allocation found")
     | ResolvePOI _ _ _ => inr "0xpoi"
     | SubgraphActiveAllocations _ => inr [allocationA]
     | CurrentEpoch => inr epoch
     | GetIndexerCapacity _ => inr 1000
     | GetAllocationState i => if (i =? "0xa1")%string then inr 1 else inr 0
     | SubgraphEnsure _ _ _ => inr tt
     | AllocationIdProof _ _ _ => inr "proof"
     | ExecuteTransaction (AllocateFrom _ _ t a _) =>
         inr (Receipt [AllocationCreated a t epoch] "0xtx")
     | ExecuteTransaction (CloseAllocation a _) =>
         inr (Receipt [AllocationClosed a 500 epoch; RewardsAssigned 3] "0xtx")
     | ExecuteTransaction (CloseAndAllocate o _ _ _ t a _) =>
         inr (Receipt [AllocationClosed o 500 epoch;
                       AllocationCreated a t epoch] "0xtx")
     | RememberAllocations _ => inr tt
     | CollectReceipts _ => inr true
     | RuleUpsert _ => inr tt
     | RuleFindOne _ => inr None
     end, S n).

Definition manager : AllocationManagerOps :=
  AllocationManager lib "0xindexer" "mnemonic".

Definition action (i : Z) (t : ActionType) (dep alloc amt : option string)
           (s : ActionStatus) : Action :=
  mkAction i t dep alloc amt None (Some false) "indexerAgent" "indexingRule"
           (Some 0) None s.
End Sample.

(** ** Queries and the worker

    The rest of [src/unnamed/part_000] and [src/unnamed/part_001]. *)

(** [interface ActionFilter]: every field optional.  [fetchActions] passes the
    filter through [JSON.parse(JSON.stringify(filter))], which drops the
    fields that are [undefined], so only the fields that are set constrain
    the query. *)
Record ActionFilter := mkFilter {
  f_type : option ActionType;
  f_status : option ActionStatus;
  f_source : option string;
  f_reason : option string
}.

(** One column of a [where] object: no constraint when the key is absent. *)
Definition where_eq {A} (eqb : A -> A -> bool) (wanted : option A) (v : A)
  : bool :=
  match wanted with
  | Some x => eqb v x
  | None => true
  end.

Definition matches (f : ActionFilter) (a : Action) : bool :=
  where_eq String.eqb (f_type f) (type a)
  && where_eq ActionStatus_eqb (f_status f) (status a)
  && where_eq String.eqb (f_source f) (source a)
  && where_eq String.eqb (f_reason f) (reason a).

(** [ActionManager.fetchActions] *)
Definition fetchActions (actionFilter : ActionFilter) (db : Store)
  : list Action :=
  filter (matches actionFilter) (rows db).

Module Resolvers.
(** The [action] resolver: [Action.findOne({ where: { id: actionID } })]. *)
Definition action (actionID : Z) (db : Store) : option Action :=
  find (fun a => id a =? actionID) (rows db).

(** The [actions] resolver. *)
Definition actions (actionFilter : ActionFilter) (db : Store) : list Action :=
  fetchActions actionFilter db.
End Resolvers.

Module IndexerWorker.
Section Tick.
Variable lib : Lib.
Variable actionManager : AllocationManagerOps.
Context {W : Type} (h : Handler W).

(** One firing of the 60 s timer of [IndexerWorker.start]: the APPROVED
    actions are fetched and their ids handed to [executeActions] without
    [force]. *)
Definition tick (db : Store) (w : W) : @Executed W :=
  let approvedActions :=
    fetchActions (mkFilter None (Some APPROVED) None None) db in
  executeActions lib actionManager h (map id approvedActions) false db w.
End Tick.
End IndexerWorker.

(** ** Vocabulary of the further statements *)

(** The table has a primary key fed by a sequence that runs ahead of it. *)
Definition Store_wf (db : Store) : Prop :=
  NoDup (map id (rows db)) /\ Forall (fun a => id a < nextId db) (rows db).

(** What [executeActions(actionIDs, force)] picks up from the table. *)
Definition selected (actionIDs : list Z) (force : bool) (a : Action) : bool :=
  (negb force && ActionStatus_eqb (status a) APPROVED)
  || (ActionStatus_eqb (status a) QUEUED && id_in actionIDs a).

(** A call together with the answer it got. *)
Inductive Interaction := Asked : forall X, Ext X -> result X -> Interaction.
Arguments Asked {X} _ _.

Section Transcript.
Context {W : Type} (h : Handler W).

(** The calls of a run with their answers, in order. *)
Fixpoint transcript {R} (p : Prog R) (w : W) : list Interaction :=
  match p with
  | Ret _ => []
  | Throw _ => []
  | Call c k =>
      let '(r, w1) := h c w in
      Asked c r :: transcript (k r) w1
  end.
End Transcript.

Definition call_of (i : Interaction) : CallRec :=
  match i with Asked c _ => CallOf c end.

(** The transactions handed to the transaction manager. *)
Definition submissions (t : list Interaction) : list TxCall :=
  flat_map (fun i => match i with
                     | Asked (ExecuteTransaction tx) _ => [tx]
                     | Asked _ _ => []
                     end) t.

(** The answers of the transaction manager. *)
Definition receipts (t : list Interaction) : list TxResult :=
  flat_map (fun i =>
              match i with
              | Asked c r =>
                  match c in Ext X return result X -> list TxResult with
                  | ExecuteTransaction _ =>
                      fun r => match r with inr x => [x] | inl _ => [] end
                  | _ => fun _ => []
                  end r
              end) t.

(** The free stake the staking contract reported. *)
Definition capacity_reads (t : list Interaction) : list Z :=
  flat_map (fun i =>
              match i with
              | Asked c r =>
                  match c in Ext X return result X -> list Z with
                  | GetIndexerCapacity _ =>
                      fun r => match r with inr x => [x] | inl _ => [] end
                  | _ => fun _ => []
                  end r
              end) t.

(** The epochs the epoch manager reported. *)
Definition epoch_reads (t : list Interaction) : list Z :=
  flat_map (fun i =>
              match i with
              | Asked c r =>
                  match c in Ext X return result X -> list Z with
                  | CurrentEpoch =>
                      fun r => match r with inr x => [x] | inl _ => [] end
                  | _ => fun _ => []
                  end r
              end) t.

(** The on-chain allocation states that were read, with the id asked for. *)
Definition state_reads (t : list Interaction) : list (string * Z) :=
  flat_map (fun i =>
              match i with
              | Asked c r =>
                  match c in Ext X return result X -> list (string * Z) with
                  | GetAllocationState a =>
                      fun r => match r with inr x => [(a, x)] | inl _ => [] end
                  | _ => fun _ => []
                  end r
              end) t.

(** The lists of active allocations reported by the network monitor or the
    network subgraph. *)
Definition active_reports (t : list Interaction) : list (list Allocation) :=
  flat_map (fun i =>
              match i with
              | Asked c r =>
                  match c in Ext X return result X -> list (list Allocation)
                  with
                  | MonitorAllocations _ =>
                      fun r => match r with inr x => [x] | inl _ => [] end
                  | SubgraphActiveAllocations _ =>
                      fun r => match r with inr x => [x] | inl _ => [] end
                  | _ => fun _ => []
                  end r
              end) t.

(** The proofs of indexing the network monitor resolved. *)
Definition poi_reads (t : list Interaction) : list string :=
  flat_map (fun i =>
              match i with
              | Asked c r =>
                  match c in Ext X return result X -> list string with
                  | ResolvePOI _ _ _ =>
                      fun r => match r with inr x => [x] | inl _ => [] end
                  | _ => fun _ => []
                  end r
              end) t.

(** The allocations the network monitor returned for a single id. *)
Definition allocation_reads (t : list Interaction) : list Allocation :=
  flat_map (fun i =>
              match i with
              | Asked c r =>
                  match c in Ext X return result X -> list Allocation with
                  | MonitorAllocation _ =>
                      fun r => match r with inr x => [x] | inl _ => [] end
                  | _ => fun _ => []
                  end r
              end) t.

(** The indexing rules handed to [IndexingRule.upsert]. *)
Definition rule_upserts (t : list Interaction) : list IndexingRule :=
  flat_map (fun i => match i with
                     | Asked (RuleUpsert r) _ => [r]
                     | Asked _ _ => []
                     end) t.

(** Calls that touch the off-chain books: the indexing rules and the receipt
    collector. *)
Definition is_bookkeeping (c : CallRec) : bool :=
  match c with
  | CallOf (RuleUpsert _) => true
  | CallOf (RememberAllocations _) => true
  | CallOf (CollectReceipts _) => true
  | CallOf _ => false
  end.

(** * Properties *)

(** ** Running programs: equations *)

Section RunFacts.
Context {W : Type} (h : Handler W).

Lemma run_await X (c : Ext X) (w : W) :
  run h (await c) w = ([CallOf c], fst (h c w), snd (h c w)).
Proof.
  simpl. destruct (h c w) as [[e | x] w1]; reflexivity.
Qed.

Lemma run_bind A B (p : Prog A) (f : A -> Prog B) (w : W) :
  run h (bind p f) w =
  match run h p w with
  | (tr, inl e, w1) => (tr, inl e, w1)
  | (tr, inr a, w1) =>
      let '(tr2, res, w2) := run h (f a) w1 in (tr ++ tr2, res, w2)
  end.
Proof.
  revert w. induction p as [a | e | X c k IH]; intros w; simpl.
  - destruct (run h (f a) w) as [[tr res] w2]. reflexivity.
  - reflexivity.
  - destruct (h c w) as [r w1]. rewrite IH.
    destruct (run h (k r) w1) as [[tr [e | a]] w2]; [reflexivity |].
    destruct (run h (f a) w2) as [[tr2 res] w3]. reflexivity.
Qed.

Lemma run_try_catch A (p : Prog A) (g : Error -> Prog A) (w : W) :
  run h (try_catch p g) w =
  match run h p w with
  | (tr, inr a, w1) => (tr, inr a, w1)
  | (tr, inl e, w1) =>
      let '(tr2, res, w2) := run h (g e) w1 in (tr ++ tr2, res, w2)
  end.
Proof.
  revert w. induction p as [a | e | X c k IH]; intros w; simpl.
  - reflexivity.
  - destruct (run h (g e) w) as [[tr res] w2]. reflexivity.
  - destruct (h c w) as [r w1]. rewrite IH.
    destruct (run h (k r) w1) as [[tr [e | a]] w2]; [| reflexivity].
    destruct (run h (g e) w2) as [[tr2 res] w3]. reflexivity.
Qed.
End RunFacts.

(** ** The programs on the sample world *)

Example allocate_within_free_stake :
  let o := run (Sample.handler 9)
               (allocate Sample.lib "0xindexer" "mnemonic" Sample.deploymentB
                         800 None) 0%nat in
  outcome_of o = inr (mkCreateResult "QmB" "0xnew" "GRT") /\
  filter is_transaction (trace_of o)
  = [CallOf (ExecuteTransaction
               (AllocateFrom "0xindexer" "0xbb" 800 "0xnew" "proof"))] /\
  world_of o = 10%nat.
Proof. vm_compute. repeat split. Qed.

Example allocate_beyond_free_stake :
  run (Sample.handler 9)
      (allocate Sample.lib "0xindexer" "mnemonic" Sample.deploymentB 1001 None)
      0%nat
  = ([CallOf (MonitorAllocations Active); CallOf CurrentEpoch;
      CallOf (GetIndexerCapacity "0xindexer")],
     inl (IndexerError IE013 (InsufficientFreeStake 1001 1000)), 3%nat).
Proof. reflexivity. Qed.

Example unallocate_after_one_epoch :
  let o := run (Sample.handler 9) (unallocate Sample.lib "0xa1" None false)
               0%nat in
  outcome_of o = inr (mkCloseResult "0xa1" "GRT" "GRT" true) /\
  filter is_transaction (trace_of o)
  = [CallOf (ExecuteTransaction (CloseAllocation "0xa1" "0xpoi"))].
Proof. vm_compute. split; reflexivity. Qed.

Example reallocate_at_and_above_capacity :
  outcome_of (run (Sample.handler 9)
                  (reallocate Sample.lib "0xindexer" "mnemonic" "0xa1" None
                              1500 false) 0%nat)
  = inr (mkReallocResult "0xa1" "GRT" true "0xnew" "GRT") /\
  outcome_of (run (Sample.handler 9)
                  (reallocate Sample.lib "0xindexer" "mnemonic" "0xa1" None
                              1501 false) 0%nat)
  = inl (IndexerError IE013 (InsufficientFreeStakeRealloc 1501 1000 500)).
Proof. vm_compute. split; reflexivity. Qed.

(** ** AllocationManager: preconditions *)

(** C6.  [allocate(deployment, amount)] with [amount <= 0], or with an Active
    allocation of [deployment] reported by the network monitor, fails after
    the monitor query alone: no chain call, no transaction, no store change. *)
Theorem allocate_rejects_before_any_chain_call :
  forall (lib : Lib) (indexer mnemonic : string) (W : Type) (h : Handler W)
         (w : W) (deployment : SubgraphDeploymentID) (amount : Z)
         (indexNode : option string),
    (amount <= 0 \/
     exists activeAllocations w1 a,
       h _ (MonitorAllocations Active) w = (inr activeAllocations, w1) /\
       In a activeAllocations /\
       deployment_toString (sd_id (subgraphDeployment a))
       = deployment_toString deployment) ->
    let o := run h (allocate lib indexer mnemonic deployment amount indexNode) w in
    is_error (outcome_of o) = true /\
    trace_of o = [CallOf (MonitorAllocations Active)] /\
    forallb side_effect_free (trace_of o) = true /\
    world_of o = snd (h _ (MonitorAllocations Active) w).
Proof.
  intros lib indexer mnemonic W h w deployment amount indexNode Hpre o.
  subst o. unfold allocate. simpl.
  destruct (h _ (MonitorAllocations Active) w) as [[e | allocs] w1] eqn:Hmon.
  - simpl. repeat split; reflexivity.
  - simpl.
    destruct (find _ allocs) as [found |] eqn:Hfind.
    + simpl. repeat split; reflexivity.
    + destruct Hpre as [Hamount | (allocs' & w1' & a & Heq & Hin & Hdep)].
      * destruct (amount <? 0) eqn:Hneg; [simpl; repeat split; reflexivity |].
        destruct (amount =? 0) eqn:Hzero; [simpl; repeat split; reflexivity |].
        apply Z.ltb_ge in Hneg. apply Z.eqb_neq in Hzero. lia.
      * inversion Heq; subst allocs' w1'.
        apply (find_none _ _ Hfind) in Hin. simpl in Hin.
        rewrite Hdep, String.eqb_refl in Hin. discriminate.
Qed.

Lemma allocate_rejects_before_any_chain_call_witness :
  let o := run (Sample.handler 9)
               (allocate Sample.lib "0xindexer" "mnemonic" Sample.deploymentA
                         10000 None) 0%nat in
  is_error (outcome_of o) = true /\
  trace_of o = [CallOf (MonitorAllocations Active)] /\
  forallb side_effect_free (trace_of o) = true /\
  world_of o = snd (Sample.handler 9 (MonitorAllocations Active) 0%nat).
Proof.
  apply (@allocate_rejects_before_any_chain_call
           Sample.lib "0xindexer" "mnemonic" nat (Sample.handler 9) 0%nat
           Sample.deploymentA 10000 None).
  right. exists [Sample.allocationA], 1%nat, Sample.allocationA.
  split; [reflexivity | split; [left; reflexivity | reflexivity]].
Defined.

(** C8.  [unallocate] of an allocation whose [createdAtEpoch] equals the
    current epoch fails (wrapped as IE015) right after reading the epoch, and
    no transaction is submitted. *)
Theorem unallocate_rejects_allocation_of_current_epoch :
  forall (lib : Lib) (W : Type) (h : Handler W) (w w1 w2 : W)
         (allocationID : string) (poi : option string) (force : bool)
         (allocation : Allocation) (currentEpoch : Z),
    h _ (MonitorAllocation allocationID) w = (inr allocation, w1) ->
    h _ CurrentEpoch w1 = (inr currentEpoch, w2) ->
    createdAtEpoch allocation = currentEpoch ->
    let o := run h (unallocate lib allocationID poi force) w in
    outcome_of o
    = inl (IndexerError IE015
             (TooYoungToClose (alloc_id allocation) (currentEpoch + 1))) /\
    trace_of o = [CallOf (MonitorAllocation allocationID); CallOf CurrentEpoch] /\
    existsb is_transaction (trace_of o) = false /\
    existsb is_close_transaction (trace_of o) = false.
Proof.
  intros lib W h w w1 w2 allocationID poi force allocation currentEpoch
         Hmon Hepoch Hsame o.
  subst o. unfold unallocate. simpl.
  rewrite Hmon. simpl. rewrite Hepoch. simpl.
  rewrite Hsame, Z.eqb_refl. simpl.
  repeat split; reflexivity.
Qed.

Lemma unallocate_rejects_allocation_of_current_epoch_witness :
  let o := run (Sample.handler 7) (unallocate Sample.lib "0xa1" None false) 0%nat in
  outcome_of o = inl (IndexerError IE015 (TooYoungToClose "0xa1" (7 + 1))) /\
  trace_of o = [CallOf (MonitorAllocation "0xa1"); CallOf CurrentEpoch] /\
  existsb is_transaction (trace_of o) = false /\
  existsb is_close_transaction (trace_of o) = false.
Proof.
  apply (@unallocate_rejects_allocation_of_current_epoch
           Sample.lib nat (Sample.handler 7) 0%nat 1%nat 2%nat "0xa1" None false
           Sample.allocationA 7);
    reflexivity.
Defined.

(** C7.  In [reallocate], once the earlier preconditions hold (the given id is
    an address and an active allocation has it, among them), with free stake
    [F] read from the staking contract and [T] tokens in the allocation being
    closed: the run goes on past the capacity check (to the on-chain lookup of
    the new allocation id) if and only if [amount <= F + T]; otherwise it
    stops there with the insufficient-capacity error IE013. *)
Theorem reallocate_capacity_check :
  forall (lib : Lib) (indexer mnemonic : string) (W : Type) (h : Handler W)
         (w0 w1 w2 w3 w4 w5 : W)
         (allocationID : string) (poi : option string) (amount : Z)
         (force : bool) (activeAllocations : list Allocation)
         (allocation : Allocation) (currentEpoch : Z) (poi' : string) (F : Z)
         (allocationAddress : string),
    h _ (SubgraphActiveAllocations indexer) w0 = (inr activeAllocations, w1) ->
    toAddress lib allocationID = inr allocationAddress ->
    find (fun a => (alloc_id a =? allocationAddress)%string)
         activeAllocations = Some allocation ->
    h _ CurrentEpoch w1 = (inr currentEpoch, w2) ->
    createdAtEpoch allocation <> currentEpoch ->
    h _ (ResolvePOI allocation poi force) w2 = (inr poi', w3) ->
    h _ (GetAllocationState (alloc_id allocation)) w3 = (inr 1, w4) ->
    0 < amount ->
    h _ (GetIndexerCapacity indexer) w4 = (inr F, w5) ->
    let T := allocatedTokens allocation in
    let newAllocationId :=
      snd (uniqueAllocationID lib mnemonic currentEpoch
                              (sd_id (subgraphDeployment allocation))
                              (map alloc_id activeAllocations)) in
    let o := run h (reallocate lib indexer mnemonic allocationID poi amount force)
                 w0 in
    (amount <= F + T <->
     exists rest,
       trace_of o = reallocate_checks indexer allocation poi force
                    ++ CallOf (GetAllocationState newAllocationId) :: rest) /\
    (~ amount <= F + T ->
     o = (reallocate_checks indexer allocation poi force,
          inl (IndexerError IE013 (InsufficientFreeStakeRealloc amount F T)),
          w5)).
Proof.
  intros lib indexer mnemonic W h w0 w1 w2 w3 w4 w5 allocationID poi amount
         force activeAllocations allocation currentEpoch poi' F allocationAddress
         Hquery Haddr Hfind Hepoch Hold Hpoi Hstate Hpos Hcap T newAllocationId o.
  subst o. unfold reallocate. simpl.
  rewrite Hquery. simpl. rewrite Haddr. simpl. rewrite Hfind. simpl.
  rewrite Hepoch. simpl.
  destruct (createdAtEpoch allocation =? currentEpoch) eqn:He;
    [apply Z.eqb_eq in He; contradiction |].
  simpl. rewrite Hpoi. simpl. rewrite Hstate. simpl.
  destruct (amount <? 0) eqn:Hneg; [apply Z.ltb_lt in Hneg; lia |].
  destruct (amount =? 0) eqn:Hzero; [apply Z.eqb_eq in Hzero; lia |].
  simpl. rewrite Hcap. simpl. fold T.
  destruct (F + T <? amount) eqn:Hlt.
  - apply Z.ltb_lt in Hlt. simpl. split; [split |].
    + intros Hle. lia.
    + intros [rest Htrace]. discriminate Htrace.
    + intros _. reflexivity.
  - apply Z.ltb_ge in Hlt. subst newAllocationId.
    destruct (uniqueAllocationID lib mnemonic currentEpoch
                (sd_id (subgraphDeployment allocation))
                (map alloc_id activeAllocations)) as [signer newId].
    simpl. split; [split |].
    + intros _.
      destruct (h Z (GetAllocationState newId) w5) as [r w6].
      match goal with
      | |- context [run h ?p w6] => destruct (run h p w6) as [[tr res] w7]
      end.
      simpl. exists tr. reflexivity.
    + intros _. exact Hlt.
    + intros Hgt. contradiction.
Qed.

Lemma reallocate_capacity_check_witness :
  let o := run (Sample.handler 9)
               (reallocate Sample.lib "0xindexer" "mnemonic" "0xa1" None 1500
                           false) 0%nat in
  (1500 <= 1000 + 500 <->
   exists rest,
     trace_of o = reallocate_checks "0xindexer" Sample.allocationA None false
                  ++ CallOf (GetAllocationState "0xnew") :: rest) /\
  (~ 1500 <= 1000 + 500 ->
   o = (reallocate_checks "0xindexer" Sample.allocationA None false,
        inl (IndexerError IE013 (InsufficientFreeStakeRealloc 1500 1000 500)),
        5%nat)).
Proof.
  apply (@reallocate_capacity_check
           Sample.lib "0xindexer" "mnemonic" nat (Sample.handler 9)
           0%nat 1%nat 2%nat 3%nat 4%nat 5%nat "0xa1" None 1500 false
           [Sample.allocationA] Sample.allocationA 9 "0xpoi" 1000 "0xa1");
    try reflexivity; simpl; lia.
Defined.

(** ** ActionManager: what a batch leaves behind *)

Section BatchFacts.
Variable lib : Lib.
Variable allocationManager : AllocationManagerOps.
Context {W : Type} (h : Handler W).

Lemma outcomes_in_turn_actions batch w :
  map fst (fst (outcomes_in_turn lib allocationManager h batch w)) = batch.
Proof.
  revert w. induction batch as [| a rest IH]; intros w; simpl; [reflexivity |].
  specialize (IH (world_of (run h (takeAction lib allocationManager a) w))).
  destruct (outcomes_in_turn lib allocationManager h rest _) as [log w'].
  simpl in *. now rewrite IH.
Qed.

Lemma executeLoop_eq batch updatedActions db w :
  executeLoop lib allocationManager h batch updatedActions db w =
  (updatedActions,
   mkStore (settle_all
              (fst (outcomes_in_turn lib allocationManager h batch w))
              (rows db))
           (nextId db),
   snd (outcomes_in_turn lib allocationManager h batch w),
   fst (outcomes_in_turn lib allocationManager h batch w)).
Proof.
  revert db w. induction batch as [| a rest IH]; intros db w; simpl.
  - destruct db; reflexivity.
  - unfold dispatch_ok, outcome_of, world_of.
    destruct (run h (takeAction lib allocationManager a) w) as [[tr res] w1].
    simpl.
    assert (Hupd :
      (match res with
       | inl _ => update_status FAILED [id a] db
       | inr _ => update_status SUCCESS [id a] db
       end)
      = (map (set_status (outcome_status (negb (is_error res))))
             (filter (id_in [id a]) (rows db)),
         mkStore (settle (a, negb (is_error res)) (rows db)) (nextId db))).
    { destruct res; reflexivity. }
    rewrite Hupd. rewrite IH. simpl.
    destruct (outcomes_in_turn lib allocationManager h rest w1) as [log w'].
    reflexivity.
Qed.
End BatchFacts.

(** *** Rows and marks *)

Lemma id_in_single i r : id_in [i] r = (id r =? i).
Proof. unfold id_in. simpl. apply orb_false_r. Qed.

Lemma set_status_twice s s' r : set_status s (set_status s' r) = set_status s r.
Proof. reflexivity. Qed.

Lemma mark_id d r : id (mark d r) = id r.
Proof. unfold mark. destruct (id_in _ r); reflexivity. Qed.

Lemma mark_all_cons d log r : mark_all (d :: log) r = mark_all log (mark d r).
Proof. reflexivity. Qed.

Lemma mark_all_app l1 l2 r : mark_all (l1 ++ l2) r = mark_all l2 (mark_all l1 r).
Proof. unfold mark_all. apply fold_left_app. Qed.

Lemma mark_all_id log r : id (mark_all log r) = id r.
Proof.
  revert r. induction log as [| d log IH]; intros r; [reflexivity |].
  rewrite mark_all_cons, IH. apply mark_id.
Qed.

Lemma mark_all_not_dispatched log r :
  ~ In (id r) (dispatched_ids log) -> mark_all log r = r.
Proof.
  revert r. induction log as [| d log IH]; intros r Hnot; [reflexivity |].
  rewrite mark_all_cons. simpl in Hnot.
  assert (Hd : mark d r = r).
  { unfold mark. rewrite id_in_single.
    destruct (id r =? id (fst d)) eqn:E; [| reflexivity].
    apply Z.eqb_eq in E. exfalso. apply Hnot. left. now symmetry. }
  rewrite Hd. apply IH. intros Hin. apply Hnot. now right.
Qed.

Lemma mark_all_dispatched log a ok r :
  NoDup (dispatched_ids log) -> In (a, ok) log -> id r = id a ->
  mark_all log r = set_status (outcome_status ok) r.
Proof.
  revert r. induction log as [| d log IH]; intros r Hnd Hin Hid; [destruct Hin |].
  simpl in Hnd. inversion Hnd as [| x l Hfresh Hnd']; subst.
  rewrite mark_all_cons. destruct Hin as [Hd | Hin].
  - subst d. simpl in Hfresh.
    assert (Hm : mark (a, ok) r = set_status (outcome_status ok) r).
    { unfold mark. rewrite id_in_single. simpl. rewrite Hid, Z.eqb_refl.
      reflexivity. }
    rewrite Hm. apply mark_all_not_dispatched. simpl. now rewrite Hid.
  - assert (Hm : mark d r = r).
    { unfold mark. rewrite id_in_single.
      destruct (id r =? id (fst d)) eqn:E; [| reflexivity].
      apply Z.eqb_eq in E. exfalso. apply Hfresh.
      rewrite <- E, Hid. unfold dispatched_ids.
      apply (in_map (fun d => id (fst d)) log (a, ok) Hin). }
    rewrite Hm. now apply IH.
Qed.

(** A mark either leaves a row alone or stamps the outcome of a dispatch of
    the same id on it. *)
Lemma mark_all_cases log r :
  mark_all log r = r \/
  exists a ok, In (a, ok) log /\ id a = id r /\
               mark_all log r = set_status (outcome_status ok) r.
Proof.
  revert r. induction log as [| [a ok] log IH]; intros r; [now left |].
  rewrite mark_all_cons.
  assert (Hm : mark (a, ok) r
               = if id r =? id a then set_status (outcome_status ok) r else r).
  { unfold mark. now rewrite id_in_single. }
  rewrite Hm. clear Hm.
  destruct (id r =? id a) eqn:E.
  - apply Z.eqb_eq in E. right.
    destruct (IH (set_status (outcome_status ok) r))
      as [Hsame | (a' & ok' & Hin & Hid & Heq)].
    + exists a, ok. rewrite Hsame. repeat split; [now left | now symmetry].
    + exists a', ok'. rewrite Heq. repeat split; [now right | exact Hid].
  - destruct (IH r) as [Hsame | (a' & ok' & Hin & Hid & Heq)].
    + now left.
    + right. exists a', ok'. repeat split; [now right | exact Hid | exact Heq].
Qed.

Lemma unique_row (l : list Action) a r :
  NoDup (map id l) -> In a l -> In r l -> id r = id a -> r = a.
Proof.
  induction l as [| x l IH]; intros Hnd Ha Hr Hid; [destruct Ha |].
  simpl in Hnd. inversion Hnd as [| y m Hfresh Hnd']; subst.
  destruct Ha as [Ha | Ha], Hr as [Hr | Hr].
  - congruence.
  - subst x. exfalso. apply Hfresh. rewrite <- Hid. now apply in_map.
  - subst x. exfalso. apply Hfresh. rewrite Hid. now apply in_map.
  - now apply IH.
Qed.

Lemma filter_twice {A} (p q : A -> bool) l :
  filter p (filter q l) = filter (fun x => q x && p x) l.
Proof.
  induction l as [| x l IH]; simpl; [reflexivity |].
  destruct (q x); simpl; [destruct (p x) |]; now rewrite ?IH.
Qed.

Lemma filter_map_unaffected {A} (p : A -> bool) (f : A -> A) l :
  (forall x, In x l -> f x = x \/ (p x = false /\ p (f x) = false)) ->
  filter p (map f l) = filter p l.
Proof.
  induction l as [| x l IH]; intros H; simpl; [reflexivity |].
  rewrite IH by (intros y Hy; apply H; now right).
  destruct (H x (or_introl eq_refl)) as [E | [E1 E2]].
  - now rewrite E.
  - now rewrite E1, E2.
Qed.

Lemma ActionStatus_eqb_eq a b : ActionStatus_eqb a b = true <-> a = b.
Proof. destruct a, b; simpl; split; intros H; congruence. Qed.

Lemma filter_none_map_outcome (d : Dispatch) (l : list Action) (ids : list Z) :
  filter (fun a => ActionStatus_eqb (status a) QUEUED && id_in ids a)
         (map (set_status (outcome_status (snd d)))
              (filter (id_in [id (fst d)]) l)) = [].
Proof.
  induction (filter (id_in [id (fst d)]) l) as [| x m IH]; simpl;
    [reflexivity |].
  destruct (snd d); simpl; exact IH.
Qed.

(** Moving the updated rows behind the others permutes the rows marked in
    place. *)
Lemma moved_behind_perm {A} (p : A -> bool) (f : A -> A) l :
  Permutation (filter (fun a => negb (p a)) l ++ map f (filter p l))
              (map (fun a => if p a then f a else a) l).
Proof.
  induction l as [| x l IH]; simpl; [constructor |].
  destruct (p x); simpl.
  - apply Permutation_sym. eapply Permutation_trans.
    + apply perm_skip. apply Permutation_sym. exact IH.
    + apply Permutation_middle.
  - now apply perm_skip.
Qed.

Lemma settle_perm d l : Permutation (settle d l) (map (mark d) l).
Proof. unfold settle, mark. apply moved_behind_perm. Qed.

Lemma settle_all_cons d log l : settle_all (d :: log) l = settle_all log (settle d l).
Proof. reflexivity. Qed.

Lemma settle_all_app l1 l2 l :
  settle_all (l1 ++ l2) l = settle_all l2 (settle_all l1 l).
Proof. unfold settle_all. apply fold_left_app. Qed.

Lemma settle_all_perm log l :
  Permutation (settle_all log l) (map (mark_all log) l).
Proof.
  revert l. induction log as [| d log IH]; intros l.
  - unfold mark_all. simpl. now rewrite map_id.
  - rewrite settle_all_cons. eapply Permutation_trans; [apply IH |].
    eapply Permutation_trans.
    + apply Permutation_map. apply settle_perm.
    + rewrite map_map. apply Permutation_refl.
Qed.

Lemma settled_rows_in log l x :
  In x (settle_all log l) <-> In x (map (mark_all log) l).
Proof.
  split; apply Permutation_in;
    [| apply Permutation_sym]; apply settle_all_perm.
Qed.

Lemma settle_all_ids log l :
  Permutation (map id (settle_all log l)) (map id l).
Proof.
  eapply Permutation_trans.
  - apply Permutation_map. apply settle_all_perm.
  - rewrite map_map. erewrite map_ext; [apply Permutation_refl |].
    intros a. apply mark_all_id.
Qed.

Lemma filter_keeps {A} (p q : A -> bool) l :
  (forall a, In a l -> q a = true -> p a = true) ->
  filter q (filter p l) = filter q l.
Proof.
  induction l as [| x l IH]; intros H; simpl; [reflexivity |].
  destruct (p x) eqn:Ep; simpl.
  - destruct (q x); rewrite IH; auto; intros a Ha; apply H; now right.
  - destruct (q x) eqn:Eq.
    + rewrite (H x (or_introl eq_refl) Eq) in Ep. discriminate.
    + apply IH. intros a Ha. apply H. now right.
Qed.

(** The QUEUED rows, in their order, are the same before and after a sweep
    that dispatched no QUEUED row. *)
Lemma queued_rows_after_sweep (ids : list Z) log (l : list Action) :
  (forall a, In a l -> In (id a) (dispatched_ids log) -> status a <> QUEUED) ->
  filter (fun a => ActionStatus_eqb (status a) QUEUED && id_in ids a)
         (settle_all log l)
  = filter (fun a => ActionStatus_eqb (status a) QUEUED && id_in ids a) l.
Proof.
  revert l. induction log as [| d log IH]; intros l Hl; [reflexivity |].
  rewrite settle_all_cons, IH.
  - unfold settle. rewrite filter_app.
    rewrite (filter_none_map_outcome d l ids), app_nil_r.
    apply filter_keeps. intros a Ha Hq.
    apply andb_true_iff in Hq. destruct Hq as [Hq _].
    apply ActionStatus_eqb_eq in Hq.
    destruct (id_in [id (fst d)] a) eqn:E; [| reflexivity].
    exfalso. apply (Hl a Ha); [| exact Hq].
    rewrite id_in_single in E. apply Z.eqb_eq in E. left. now symmetry.
  - intros a Ha Hid Hst. unfold settle in Ha. apply in_app_or in Ha.
    destruct Ha as [Ha | Ha].
    + apply filter_In in Ha. destruct Ha as [Ha _].
      apply (Hl a Ha); [now right | exact Hst].
    + apply in_map_iff in Ha. destruct Ha as (b & Hb & _). subst a.
      destruct (snd d); discriminate.
Qed.

Lemma NoDup_ids_two_filters (p q : Action -> bool) (l : list Action) :
  NoDup (map id l) ->
  (forall a, p a = true -> q a = false) ->
  NoDup (map id (filter p l ++ filter q l)).
Proof.
  intros Hnd Hdisj. induction l as [| x l IH]; simpl; [constructor |].
  simpl in Hnd. inversion Hnd as [| y m Hfresh Hnd']; subst.
  specialize (IH Hnd').
  assert (Hnot : ~ In (id x) (map id (filter p l ++ filter q l))).
  { intros Hin. apply Hfresh. apply in_map_iff in Hin.
    destruct Hin as (z & Hz & Hin). apply in_map_iff. exists z. split; [exact Hz |].
    apply in_app_or in Hin. destruct Hin as [Hin | Hin];
      apply filter_In in Hin; tauto. }
  destruct (p x) eqn:Hp.
  - rewrite (Hdisj x Hp). simpl. constructor; assumption.
  - destruct (q x) eqn:Hq; [| exact IH].
    rewrite map_app. simpl.
    apply (Permutation_NoDup
             (l := id x :: map id (filter p l) ++ map id (filter q l))).
    + apply Permutation_middle.
    + rewrite <- map_app. constructor; assumption.
Qed.

Lemma dispatched_ids_in log i :
  In i (dispatched_ids log) -> exists d, In d log /\ id (fst d) = i.
Proof.
  unfold dispatched_ids. intros Hin. apply in_map_iff in Hin.
  destruct Hin as (d & Hd & Hin). now exists d.
Qed.

(** ** ActionManager: [executeActions] *)

Section ExecuteFacts.
Variable lib : Lib.
Variable allocationManager : AllocationManagerOps.
Context {W : Type} (h : Handler W).

(** The value [executeActions] returns is the array it started with. *)
Lemma executeActions_returned_nil actionIDs force db w :
  returned (executeActions lib allocationManager h actionIDs force db w) = [].
Proof.
  unfold executeActions. destruct force; simpl.
  - rewrite executeLoop_eq. reflexivity.
  - rewrite !executeLoop_eq. reflexivity.
Qed.

(** Both phases at once, for a table with a primary key. *)
Lemma executeActions_eq actionIDs (force : bool) db w :
  NoDup (map id (rows db)) ->
  let batch1 := if force then [] else findAll_status APPROVED db in
  let batch2 := filter (id_in actionIDs) (findAll_status QUEUED db) in
  let o1 := outcomes_in_turn lib allocationManager h batch1 w in
  let o2 := outcomes_in_turn lib allocationManager h batch2 (snd o1) in
  executeActions lib allocationManager h actionIDs force db w
  = mkExecuted [] (mkStore (settle_all (fst o1 ++ fst o2) (rows db))
                           (nextId db))
               (snd o2) (fst o1) (fst o2).
Proof.
  intros Hnd batch1 batch2 o1 o2. subst batch1 batch2 o1 o2.
  unfold executeActions. destruct force; unfold negb; cbv beta iota.
  - rewrite executeLoop_eq. reflexivity.
  - rewrite executeLoop_eq.
    set (batch1 := findAll_status APPROVED db).
    set (o1 := outcomes_in_turn lib allocationManager h batch1 w).
    assert (Hq : filter (id_in actionIDs)
                   (findAll_status QUEUED
                      (mkStore (settle_all (fst o1) (rows db)) (nextId db)))
                 = filter (id_in actionIDs) (findAll_status QUEUED db)).
    { unfold findAll_status. simpl. rewrite !filter_twice.
      apply queued_rows_after_sweep.
      intros a Ha Hid Hst.
      apply dispatched_ids_in in Hid. destruct Hid as (d & Hd & Hid).
      assert (Hin : In (fst d) batch1).
      { rewrite <- (outcomes_in_turn_actions lib allocationManager h batch1 w).
        now apply in_map. }
      apply filter_In in Hin. destruct Hin as [Hin Hap].
      apply ActionStatus_eqb_eq in Hap.
      assert (fst d = a) by (apply (unique_row (rows db)); auto).
      congruence. }
    cbv beta iota zeta. rewrite Hq. rewrite executeLoop_eq. simpl.
    now rewrite settle_all_app.
Qed.
End ExecuteFacts.

(** C1.  A table with one APPROVED action, swept by
    [executeActions([], false)]: the action is dispatched and its row is
    marked SUCCESS, yet the returned list is empty. *)
Theorem executeActions_returns_empty_list_after_update :
  let a := Sample.action 1 ActionType.COLLECT None (Some "0xa1") None APPROVED in
  let ex := executeActions Sample.lib Sample.manager (Sample.handler 9)
                           [] false (mkStore [a] 2) 0%nat in
  phase1 ex = [(a, true)] /\
  rows (store_after ex) = [set_status SUCCESS a] /\
  returned ex = [].
Proof. vm_compute. repeat split. Qed.

Lemma filter_none {A} (l : list A) : filter (fun _ => false) l = [].
Proof. induction l; simpl; auto. Qed.

Lemma dispatched_ids_actions log : dispatched_ids log = map id (map fst log).
Proof. unfold dispatched_ids. now rewrite map_map. Qed.

(** The ids dispatched by the two phases are pairwise distinct. *)
Lemma batches_ids_NoDup (actionIDs : list Z) (force : bool) (db : Store) :
  NoDup (map id (rows db)) ->
  NoDup (map id ((if force then [] else findAll_status APPROVED db)
                 ++ filter (id_in actionIDs) (findAll_status QUEUED db))).
Proof.
  intros Hnd. unfold findAll_status. rewrite filter_twice.
  destruct force.
  - rewrite <- (filter_none (rows db)).
    apply NoDup_ids_two_filters; [exact Hnd | discriminate].
  - apply NoDup_ids_two_filters; [exact Hnd |].
    intros a Ha. apply ActionStatus_eqb_eq in Ha. now rewrite Ha.
Qed.

Lemma dispatched_row_final (l : list Action) log a ok :
  NoDup (dispatched_ids log) -> In (a, ok) log -> In a l ->
  In (set_status (outcome_status ok) a) (settle_all log l) /\
  forall r, In r (settle_all log l) -> id r = id a ->
            status r = outcome_status ok.
Proof.
  intros Hnd Hin Ha. split.
  - apply settled_rows_in.
    rewrite <- (mark_all_dispatched log a ok a Hnd Hin eq_refl).
    now apply in_map.
  - intros r Hr Hid. apply settled_rows_in in Hr.
    apply in_map_iff in Hr. destruct Hr as (r0 & Hr0 & _).
    subst r. rewrite mark_all_id in Hid.
    now rewrite (mark_all_dispatched log a ok r0 Hnd Hin Hid).
Qed.

Lemma undispatched_row_stays (l : list Action) log a :
  ~ In (id a) (dispatched_ids log) -> In a l -> In a (settle_all log l).
Proof.
  intros Hno Ha. apply settled_rows_in.
  rewrite <- (mark_all_not_dispatched log a Hno). now apply in_map.
Qed.

(** C2.  With [force] set the sweep of APPROVED actions is skipped: no
    [takeAction] runs for it, and the world the second phase starts in is the
    one the call was given; without it the sweep runs [takeAction] on every
    APPROVED action, and each ends in the table with the outcome of its own
    dispatch.  Either way the second phase runs [takeAction], in turn, on
    exactly the QUEUED actions whose id is in [actionIDs], and each of them
    ends in the table as SUCCESS or FAILED by its own outcome; so an APPROVED
    action is never dispatched by it, and with [force] set it is not
    dispatched at all, named in [actionIDs] or not, and its row is still in
    the table, APPROVED, afterwards. *)
Theorem execute_force_skips_sweep_and_phase2_takes_queued_ids :
  forall (lib : Lib) (am : AllocationManagerOps) (W : Type) (h : Handler W)
         (actionIDs : list Z) (force : bool) (db : Store) (w : W),
    NoDup (map id (rows db)) ->
    let ex := executeActions lib am h actionIDs force db w in
    let batch2 := filter (id_in actionIDs) (findAll_status QUEUED db) in
    let o1 := outcomes_in_turn lib am h (findAll_status APPROVED db) w in
    (force = true -> phase1 ex = []) /\
    (force = false -> map fst (phase1 ex) = findAll_status APPROVED db) /\
    map fst (phase2 ex)
    = filter (fun a => ActionStatus_eqb (status a) QUEUED && id_in actionIDs a)
             (rows db) /\
    (forall a, In a (rows db) -> status a = APPROVED ->
               ~ In (id a) (dispatched_ids (phase2 ex))) /\
    (force = true ->
     forall a, In a (rows db) -> status a = APPROVED ->
               ~ In (id a) (dispatched_ids (phase1 ex ++ phase2 ex))) /\
    (force = true ->
     phase2 ex = fst (outcomes_in_turn lib am h batch2 w) /\
     world_after ex = snd (outcomes_in_turn lib am h batch2 w)) /\
    (force = false ->
     phase1 ex = fst o1 /\
     phase2 ex = fst (outcomes_in_turn lib am h batch2 (snd o1)) /\
     world_after ex = snd (outcomes_in_turn lib am h batch2 (snd o1))) /\
    (forall a ok,
        In (a, ok) (phase2 ex) ->
        In a (rows db) /\ status a = QUEUED /\ id_in actionIDs a = true /\
        In (set_status (outcome_status ok) a) (rows (store_after ex))) /\
    (force = false ->
     forall a, In a (rows db) -> status a = APPROVED ->
               exists ok, In (a, ok) (phase1 ex) /\
                          In (set_status (outcome_status ok) a)
                             (rows (store_after ex))) /\
    (force = true ->
     forall a, In a (rows db) -> status a = APPROVED ->
               In a (rows (store_after ex))).
Proof.
  intros lib am W h actionIDs force db w Hnd ex batch2 o1.
  subst ex. rewrite executeActions_eq by exact Hnd. simpl.
  set (batch1 := if force then [] else findAll_status APPROVED db).
  set (p1 := outcomes_in_turn lib am h batch1 w).
  fold batch2.
  set (p2 := outcomes_in_turn lib am h batch2 (snd p1)).
  assert (H1 : map fst (fst p1) = batch1)
    by apply outcomes_in_turn_actions.
  assert (H2 : map fst (fst p2) = batch2)
    by apply outcomes_in_turn_actions.
  assert (Hids : NoDup (dispatched_ids (fst p1 ++ fst p2))).
  { rewrite dispatched_ids_actions, map_app.
    change (NoDup (map id (map fst (fst p1) ++ map fst (fst p2)))).
    rewrite H1, H2. apply batches_ids_NoDup. exact Hnd. }
  assert (Hb2 : forall a, In a batch2 ->
                          In a (rows db) /\ status a = QUEUED /\
                          id_in actionIDs a = true).
  { intros a Ha. unfold batch2, findAll_status in Ha.
    apply filter_In in Ha. destruct Ha as [Ha Hid].
    apply filter_In in Ha. destruct Ha as [Hrow Hq].
    apply ActionStatus_eqb_eq in Hq. auto. }
  assert (Hq : forall a, In a (rows db) -> status a = APPROVED ->
                         ~ In (id a) (dispatched_ids (fst p2))).
  { intros a Ha Hst Hin.
    apply dispatched_ids_in in Hin. destruct Hin as (d & Hd & Hid).
    assert (Hd2 : In (fst d) batch2) by (rewrite <- H2; now apply in_map).
    apply Hb2 in Hd2. destruct Hd2 as (Hrow & Hqueued & _).
    assert (fst d = a) by (apply (unique_row (rows db)); auto).
    congruence. }
  split; [| split; [| split; [| split; [| split; [| split; [| split;
    [| split; [| split]]]]]]]].
  - intros Hf. subst force. reflexivity.
  - intros Hf. subst force. exact H1.
  - rewrite H2. unfold batch2, findAll_status. apply filter_twice.
  - exact Hq.
  - intros Hf a Ha Hst. subst force. simpl. now apply Hq.
  - intros Hf. subst force. split; reflexivity.
  - intros Hf. subst force. repeat split; reflexivity.
  - intros a ok Hin.
    assert (Ha : In a batch2).
    { rewrite <- H2. apply (in_map fst _ _ Hin). }
    destruct (Hb2 a Ha) as (Hrow & Hst & Hid).
    repeat split; auto.
    apply dispatched_row_final; auto. apply in_or_app. now right.
  - intros Hf a Ha Hst. subst force.
    assert (Hin : In a (map fst (fst p1))).
    { rewrite H1. apply filter_In. split; [exact Ha |].
      rewrite Hst. reflexivity. }
    apply in_map_iff in Hin. destruct Hin as ([a' ok] & Ha' & Hin).
    simpl in Ha'. subst a'. exists ok. split; [exact Hin |].
    apply dispatched_row_final; auto. apply in_or_app. now left.
  - intros Hf a Ha Hst. subst force. simpl.
    apply undispatched_row_stays; [| exact Ha]. now apply Hq.
Qed.

Lemma execute_force_skips_sweep_and_phase2_takes_queued_ids_witness :
  let approved :=
    Sample.action 1 ActionType.COLLECT None (Some "0xa1") None APPROVED in
  let queued :=
    Sample.action 2 ActionType.COLLECT None (Some "0xa1") None QUEUED in
  let db := mkStore [approved; queued] 3 in
  let ex := executeActions Sample.lib Sample.manager (Sample.handler 9)
                           [1; 2] true db 0%nat in
  phase1 ex = [] /\
  map fst (phase2 ex) = [queued] /\
  In approved (rows (store_after ex)) /\
  (In (set_status SUCCESS queued) (rows (store_after ex)) \/
   In (set_status FAILED queued) (rows (store_after ex))).
Proof.
  intros approved queued db.
  assert (Hnd : NoDup (map id (rows db))).
  { simpl. repeat constructor; simpl; intuition discriminate. }
  destruct (@execute_force_skips_sweep_and_phase2_takes_queued_ids
              Sample.lib Sample.manager nat (Sample.handler 9) [1; 2] true db
              0%nat Hnd)
    as (Hskip & _ & Hbatch & _ & _ & _ & _ & Hrows & _ & Hkept).
  split; [exact (Hskip eq_refl) |].
  split; [exact Hbatch |].
  split; [apply (Hkept eq_refl); [left; reflexivity | reflexivity] |].
  assert (Hin : In queued
                   (map fst
                      (phase2 (executeActions Sample.lib Sample.manager
                                              (Sample.handler 9) [1; 2] true db
                                              0%nat)))).
  { rewrite Hbatch. left. reflexivity. }
  apply in_map_iff in Hin. destruct Hin as ([a ok] & Ha & Hin).
  simpl in Ha. subst a.
  destruct (Hrows queued ok Hin) as (_ & _ & _ & H).
  destruct ok; [left | right]; exact H.
Defined.

(** C3.  Every action of both batches is dispatched in turn, whatever became
    of the ones before it; its flag is the outcome of its own dispatch, and
    its row ends up SUCCESS when that dispatch resolved and FAILED when it
    threw. *)
Theorem execute_records_each_outcome_independently :
  forall (lib : Lib) (am : AllocationManagerOps) (W : Type) (h : Handler W)
         (actionIDs : list Z) (force : bool) (db : Store) (w : W),
    NoDup (map id (rows db)) ->
    let ex := executeActions lib am h actionIDs force db w in
    let batch1 := if force then [] else findAll_status APPROVED db in
    let batch2 := filter (id_in actionIDs) (findAll_status QUEUED db) in
    let o1 := outcomes_in_turn lib am h batch1 w in
    phase1 ex = fst o1 /\
    phase2 ex = fst (outcomes_in_turn lib am h batch2 (snd o1)) /\
    map fst (phase1 ex) = batch1 /\
    map fst (phase2 ex) = batch2 /\
    forall a ok,
      In (a, ok) (phase1 ex ++ phase2 ex) ->
      In (set_status (outcome_status ok) a) (rows (store_after ex)) /\
      forall r, In r (rows (store_after ex)) -> id r = id a ->
                status r = outcome_status ok.
Proof.
  intros lib am W h actionIDs force db w Hnd ex batch1 batch2 o1.
  subst ex. rewrite executeActions_eq by exact Hnd. simpl.
  fold batch1 batch2. fold o1.
  set (o2 := outcomes_in_turn lib am h batch2 (snd o1)).
  assert (H1 : map fst (fst o1) = batch1) by apply outcomes_in_turn_actions.
  assert (H2 : map fst (fst o2) = batch2) by apply outcomes_in_turn_actions.
  split; [reflexivity |]. split; [reflexivity |].
  split; [exact H1 |]. split; [exact H2 |].
  intros a ok Hin.
  apply dispatched_row_final; [| exact Hin |].
  - rewrite dispatched_ids_actions, map_app.
    change (NoDup (map id (map fst (fst o1) ++ map fst (fst o2)))).
    rewrite H1, H2. apply batches_ids_NoDup. exact Hnd.
  - assert (Ha : In a (batch1 ++ batch2)).
    { rewrite <- H1, <- H2, <- map_app. apply (in_map fst _ _ Hin). }
    apply in_app_or in Ha. destruct Ha as [Ha | Ha].
    + unfold batch1 in Ha. destruct force; [destruct Ha |].
      apply filter_In in Ha. tauto.
    + unfold batch2, findAll_status in Ha.
      apply filter_In in Ha. destruct Ha as [Ha _].
      apply filter_In in Ha. tauto.
Qed.

(** A batch of four approved actions of which the second throws during
    dispatch (its amount does not parse): it alone ends FAILED. *)
Example execute_batch_of_four :
  let db :=
    mkStore
      [Sample.action 1 ActionType.COLLECT None (Some "0xa1") None APPROVED;
       Sample.action 2 ActionType.ALLOCATE (Some "QmB") None (Some "x") APPROVED;
       Sample.action 3 ActionType.UNALLOCATE None (Some "0xa1") None APPROVED;
       Sample.action 4 ActionType.REALLOCATE None (Some "0xa1") (Some "1500")
                     APPROVED] 5 in
  let ex := executeActions Sample.lib Sample.manager (Sample.handler 9)
                           [] false db 0%nat in
  Forall (fun r => status r = if id r =? 2 then FAILED else SUCCESS)
         (rows (store_after ex)) /\
  List.length (rows (store_after ex)) = 4%nat /\
  map snd (phase1 ex) = [true; false; true; true].
Proof. vm_compute. repeat split; repeat constructor. Qed.

Lemma execute_records_each_outcome_independently_witness :
  let db :=
    mkStore
      [Sample.action 1 ActionType.COLLECT None (Some "0xa1") None APPROVED;
       Sample.action 2 ActionType.ALLOCATE (Some "QmB") None (Some "x") APPROVED;
       Sample.action 3 ActionType.UNALLOCATE None (Some "0xa1") None QUEUED] 4 in
  let ex := executeActions Sample.lib Sample.manager (Sample.handler 9)
                           [3] false db 0%nat in
  let batch1 := findAll_status APPROVED db in
  let batch2 := filter (id_in [3]) (findAll_status QUEUED db) in
  let o1 := outcomes_in_turn Sample.lib Sample.manager (Sample.handler 9)
                             batch1 0%nat in
  phase1 ex = fst o1 /\
  phase2 ex = fst (outcomes_in_turn Sample.lib Sample.manager (Sample.handler 9)
                                    batch2 (snd o1)) /\
  map fst (phase1 ex) = batch1 /\
  map fst (phase2 ex) = batch2 /\
  forall a ok,
    In (a, ok) (phase1 ex ++ phase2 ex) ->
    In (set_status (outcome_status ok) a) (rows (store_after ex)) /\
    forall r, In r (rows (store_after ex)) -> id r = id a ->
              status r = outcome_status ok.
Proof.
  intros db.
  apply (@execute_records_each_outcome_independently
           Sample.lib Sample.manager nat (Sample.handler 9) [3] false db 0%nat).
  simpl. repeat constructor; simpl; intuition discriminate.
Defined.

(** ** ActionManager: [takeAction] *)

Lemma mapped_false (t : ActionType) :
  ActionType.mapped t = false ->
  (t =? ActionType.ALLOCATE)%string = false /\
  (t =? ActionType.UNALLOCATE)%string = false /\
  (t =? ActionType.REALLOCATE)%string = false /\
  (t =? ActionType.COLLECT)%string = false.
Proof.
  unfold ActionType.mapped. intros H.
  repeat (apply orb_false_elim in H; destruct H as [H ?]). auto.
Qed.

(** C4, as the code has it.  Each of the four action types is dispatched to
    one operation of the allocation manager (once the amount and deployment
    parse); for any other type [takeAction] calls nothing and resolves to
    [undefined]: the dispatch completes, it does not fail. *)
Theorem takeAction_dispatch_table :
  forall (lib : Lib) (am : AllocationManagerOps) (a : Action),
    (type a = ActionType.ALLOCATE ->
     forall d z,
       SubgraphDeploymentID_new lib (deploymentID a) = inr d ->
       BigNumber_from lib (amount a) = inr z ->
       takeAction lib am a
       = bind (am_allocate am d z None) (fun r => Ret (Created r))) /\
    (type a = ActionType.UNALLOCATE ->
     takeAction lib am a
     = bind (am_unallocate am (non_null (allocationID a)) (poi a)
                           (default_false (force a)))
            (fun r => Ret (ClosedResult r))) /\
    (type a = ActionType.REALLOCATE ->
     forall z,
       BigNumber_from lib (amount a) = inr z ->
       takeAction lib am a
       = bind (am_reallocate am (non_null (allocationID a)) (poi a) z
                             (default_false (force a)))
              (fun r => Ret (Reallocated r))) /\
    (type a = ActionType.COLLECT ->
     takeAction lib am a
     = bind (am_collect am (non_null (allocationID a)))
            (fun r => Ret (Collected r))) /\
    (ActionType.mapped (type a) = false ->
     takeAction lib am a = Ret Undefined /\
     forall (W : Type) (h : Handler W) (w : W),
       run h (takeAction lib am a) w = ([], inr Undefined, w)).
Proof.
  intros lib am a. unfold takeAction.
  split; [| split; [| split; [| split]]].
  - intros Ht d z Hd Hz. rewrite Ht, Hd, Hz. reflexivity.
  - intros Ht. rewrite Ht. reflexivity.
  - intros Ht z Hz. rewrite Ht, Hz. reflexivity.
  - intros Ht. rewrite Ht. reflexivity.
  - intros Hother. apply mapped_false in Hother.
    destruct Hother as (H1 & H2 & H3 & H4).
    rewrite H1, H2, H3, H4. split; reflexivity.
Qed.

Lemma takeAction_dispatch_table_witness :
  let allocateA :=
    Sample.action 1 ActionType.ALLOCATE (Some "QmB") None (Some "10000") QUEUED in
  let unallocateA :=
    Sample.action 2 ActionType.UNALLOCATE None (Some "0xa1") None QUEUED in
  let reallocateA :=
    Sample.action 3 ActionType.REALLOCATE None (Some "0xa1") (Some "27000")
                  QUEUED in
  let collectA :=
    Sample.action 4 ActionType.COLLECT None (Some "0xa1") None QUEUED in
  let otherA := Sample.action 5 "resize" None (Some "0xa1") None QUEUED in
  takeAction Sample.lib Sample.manager allocateA
  = bind (am_allocate Sample.manager Sample.deploymentB 10000 None)
         (fun r => Ret (Created r)) /\
  takeAction Sample.lib Sample.manager unallocateA
  = bind (am_unallocate Sample.manager "0xa1" None false)
         (fun r => Ret (ClosedResult r)) /\
  takeAction Sample.lib Sample.manager reallocateA
  = bind (am_reallocate Sample.manager "0xa1" None 27000 false)
         (fun r => Ret (Reallocated r)) /\
  takeAction Sample.lib Sample.manager collectA
  = bind (am_collect Sample.manager "0xa1") (fun r => Ret (Collected r)) /\
  takeAction Sample.lib Sample.manager otherA = Ret Undefined.
Proof.
  intros allocateA unallocateA reallocateA collectA otherA.
  split; [| split; [| split; [| split]]].
  - apply (proj1 (takeAction_dispatch_table Sample.lib Sample.manager allocateA));
      reflexivity.
  - apply (proj1 (proj2 (takeAction_dispatch_table
                           Sample.lib Sample.manager unallocateA))).
    reflexivity.
  - apply (proj1 (proj2 (proj2 (takeAction_dispatch_table
                                  Sample.lib Sample.manager reallocateA))));
      reflexivity.
  - apply (proj1 (proj2 (proj2 (proj2 (takeAction_dispatch_table
                                         Sample.lib Sample.manager collectA))))).
    reflexivity.
  - apply (proj2 (proj2 (proj2 (proj2 (takeAction_dispatch_table
                                         Sample.lib Sample.manager otherA))))).
    reflexivity.
Defined.

(** C4, as stated, fails: an action whose type is outside the enum is
    dispatched without any call and without an error. *)
Lemma takeAction_unmapped_type_completes :
  let a := Sample.action 5 "resize" None (Some "0xa1") None APPROVED in
  ActionType.mapped (type a) = false /\
  run (Sample.handler 9) (takeAction Sample.lib Sample.manager a) 0%nat
  = ([], inr Undefined, 0%nat) /\
  is_error (outcome_of (run (Sample.handler 9)
                            (takeAction Sample.lib Sample.manager a) 0%nat))
  = false.
Proof. vm_compute. repeat split. Qed.

(** ** Resolvers: approve and cancel *)

Lemma update_status_perm s ids db :
  Permutation (rows (snd (update_status s ids db)))
              (map (fun a => if id_in ids a then set_status s a else a)
                   (rows db)).
Proof. simpl. apply moved_behind_perm. Qed.

Lemma update_status_in s ids db x :
  In x (rows (snd (update_status s ids db))) <->
  exists r, In r (rows db) /\
            x = if id_in ids r then set_status s r else r.
Proof.
  split.
  - intros Hx. apply (Permutation_in _ (update_status_perm s ids db)) in Hx.
    apply in_map_iff in Hx. destruct Hx as (r & Hr & Hin). now exists r.
  - intros (r & Hin & Hr).
    apply (Permutation_in _ (Permutation_sym (update_status_perm s ids db))).
    apply in_map_iff. now exists r.
Qed.

Lemma update_status_none s ids db :
  List.length (fst (update_status s ids db)) = 0%nat <->
  forall a, In a (rows db) -> id_in ids a = false.
Proof.
  simpl. rewrite length_map. split.
  - intros Hlen a Ha. apply length_zero_iff_nil in Hlen.
    destruct (id_in ids a) eqn:E; [| reflexivity].
    assert (Hin : In a (filter (id_in ids) (rows db)))
      by (apply filter_In; auto).
    rewrite Hlen in Hin. destruct Hin.
  - intros Hall. apply length_zero_iff_nil.
    induction (rows db) as [| x l IH]; simpl; [reflexivity |].
    rewrite (Hall x (or_introl eq_refl)).
    apply IH. intros a Ha. apply Hall. now right.
Qed.

(** C5, as the code has it.  [approveActions] sets APPROVED on every row whose
    id is given, whatever its status, a CANCELED row included, and
    [cancelActions] sets CANCELED on every row whose id is given, whatever
    its status; rows whose id is not given are left as they are, and the
    table holds nothing else afterwards; each fails exactly when no row has
    one of the given ids. *)
Theorem approve_and_cancel_select_by_id_only :
  forall (actionIDs : list Z) (db : Store),
    (forall r,
        In r (rows db) ->
        In (if id_in actionIDs r then set_status APPROVED r else r)
           (rows (snd (approveActions actionIDs db))) /\
        In (if id_in actionIDs r then set_status CANCELED r else r)
           (rows (snd (cancelActions actionIDs db)))) /\
    (forall x,
        In x (rows (snd (approveActions actionIDs db))) ->
        exists r, In r (rows db) /\
                  x = if id_in actionIDs r then set_status APPROVED r else r) /\
    (forall x,
        In x (rows (snd (cancelActions actionIDs db))) ->
        exists r, In r (rows db) /\
                  x = if id_in actionIDs r then set_status CANCELED r else r) /\
    (is_error (fst (approveActions actionIDs db)) = true <->
     forall a, In a (rows db) -> id_in actionIDs a = false) /\
    (is_error (fst (cancelActions actionIDs db)) = true <->
     forall a, In a (rows db) -> id_in actionIDs a = false).
Proof.
  intros actionIDs db.
  assert (Hshape : forall s,
    (let '(updated, db') := update_status s actionIDs db in
     if (List.length updated =? 0)%nat
     then (inl (NoActionsUpdated s), db')
     else (inr updated, db'))
    = (if (List.length (fst (update_status s actionIDs db)) =? 0)%nat
       then inl (NoActionsUpdated s)
       else inr (fst (update_status s actionIDs db)),
       snd (update_status s actionIDs db))).
  { intros s. destruct (update_status s actionIDs db) as [updated db'].
    simpl. destruct (List.length updated =? 0)%nat; reflexivity. }
  unfold approveActions, cancelActions. rewrite !Hshape. cbn [fst snd].
  split; [| split; [| split; [| split]]].
  - intros r Hr. split; apply update_status_in; now exists r.
  - intros x Hx. now apply update_status_in.
  - intros x Hx. now apply update_status_in.
  - rewrite <- (update_status_none APPROVED).
    destruct (List.length (fst (update_status APPROVED actionIDs db)) =? 0)%nat
      eqn:E.
    + apply Nat.eqb_eq in E. simpl. tauto.
    + apply Nat.eqb_neq in E. simpl. split; [discriminate | contradiction].
  - rewrite <- (update_status_none CANCELED).
    destruct (List.length (fst (update_status CANCELED actionIDs db)) =? 0)%nat
      eqn:E.
    + apply Nat.eqb_eq in E. simpl. tauto.
    + apply Nat.eqb_neq in E. simpl. split; [discriminate | contradiction].
Qed.

Lemma approve_and_cancel_select_by_id_only_witness :
  let canceled :=
    Sample.action 1 ActionType.ALLOCATE (Some "QmB") None (Some "10000")
                  CANCELED in
  let other :=
    Sample.action 2 ActionType.COLLECT None (Some "0xa1") None QUEUED in
  let db := mkStore [canceled; other] 3 in
  In (set_status APPROVED canceled) (rows (snd (approveActions [1] db))) /\
  In other (rows (snd (approveActions [1] db))) /\
  In canceled (rows (snd (cancelActions [2] db))).
Proof.
  intros canceled other db.
  destruct (approve_and_cancel_select_by_id_only [1] db) as [Happrove _].
  destruct (approve_and_cancel_select_by_id_only [2] db) as [Hcancel _].
  split; [| split].
  - apply (proj1 (Happrove canceled (or_introl eq_refl))).
  - apply (proj1 (Happrove other (or_intror (or_introl eq_refl)))).
  - apply (proj2 (Hcancel canceled (or_introl eq_refl))).
Defined.

(** C5, as stated, fails: a queued action that was canceled is APPROVED
    again after [approveActions] on its id. *)
Lemma approve_resurrects_canceled_action :
  let queued :=
    Sample.action 1 ActionType.ALLOCATE (Some "QmB") None (Some "10000") QUEUED in
  let db0 := mkStore [queued] 2 in
  let db1 := snd (cancelActions [1] db0) in
  let db2 := snd (approveActions [1] db1) in
  map status (rows db1) = [CANCELED] /\
  is_error (fst (approveActions [1] db1)) = false /\
  map status (rows db2) = [APPROVED].
Proof. vm_compute. repeat split. Qed.

(** ** Queueing *)







(** ** Building an action input *)

Lemma is_true_string_spec (x : option string) :
  is_true_string x = true <-> x = Some "true"%string.
Proof.
  destruct x as [s |]; simpl.
  - rewrite String.eqb_eq. split; congruence.
  - split; discriminate.
Qed.

(** C10.  For UNALLOCATE the force flag comes from [param2] and for
    REALLOCATE from [param3]: it is [true] exactly when that parameter is the
    string ["true"], and [false] for any other string or when the parameter
    is absent.  [buildActionInput] fails only when the validation of the
    required fields fails, and the flag's parameter is not one of them. *)
Theorem buildActionInput_force_flag :
  forall (validate : list (string * option string) -> list string -> result unit)
         (type : ActionType) (params : GenericActionInputParams)
         (source reason : string) (status : ActionStatus) (priority : Z),
    type = ActionType.UNALLOCATE \/ type = ActionType.REALLOCATE ->
    let flag := if (type =? ActionType.UNALLOCATE)%string
                then param2 params else param3 params in
    let flagName := if (type =? ActionType.UNALLOCATE)%string
                    then "param2"%string else "param3"%string in
    let built :=
      buildActionInput validate type params source reason status priority in
    ~ In flagName (requiredFields type) /\
    is_error built
    = is_error (validate (params_record params) (requiredFields type)) /\
    (is_error (validate (params_record params) (requiredFields type)) = false ->
     exists input,
       built = inr (Some input) /\
       (in_force input = Some true <-> flag = Some "true"%string) /\
       (in_force input = Some false <-> flag <> Some "true"%string)).
Proof.
  intros validate type params source reason status priority Htype
         flag flagName built.
  assert (Hflag : forall x : option string,
             (Some (is_true_string x) = Some true <-> x = Some "true"%string) /\
             (Some (is_true_string x) = Some false <-> x <> Some "true"%string)).
  { intros [s |]; simpl; [destruct (String.eqb_spec s "true") |];
      split; split; intros; congruence. }
  subst built. unfold buildActionInput, validateActionInput.
  destruct Htype as [Ht | Ht]; subst type flag flagName; simpl.
  - split; [intuition discriminate |].
    destruct (validate (params_record params) (requiredFields _)) as [e | u];
      simpl.
    + split; [reflexivity | discriminate].
    + split; [reflexivity |]. intros _. eexists. split; [reflexivity |].
      simpl. apply Hflag.
  - split; [intuition discriminate |].
    destruct (validate (params_record params) (requiredFields _)) as [e | u];
      simpl.
    + split; [reflexivity | discriminate].
    + split; [reflexivity |]. intros _. eexists. split; [reflexivity |].
      simpl. apply Hflag.
Qed.

Lemma buildActionInput_force_flag_witness :
  let params := mkParams (Some "0xa1") None (Some "yes") None in
  let built :=
    buildActionInput validateRequiredParams_spec ActionType.UNALLOCATE params
                     "indexerCLI" "manual" QUEUED 0 in
  ~ In "param2"%string (requiredFields ActionType.UNALLOCATE) /\
  is_error built
  = is_error (validateRequiredParams_spec
                (params_record params) (requiredFields ActionType.UNALLOCATE)) /\
  (is_error (validateRequiredParams_spec
               (params_record params) (requiredFields ActionType.UNALLOCATE))
   = false ->
   exists input,
     built = inr (Some input) /\
     (in_force input = Some true <-> Some "yes"%string = Some "true"%string) /\
     (in_force input = Some false <-> Some "yes"%string <> Some "true"%string)).
Proof.
  intros params.
  apply (@buildActionInput_force_flag
           validateRequiredParams_spec ActionType.UNALLOCATE params
           "indexerCLI" "manual" QUEUED 0).
  left. reflexivity.
Defined.

(** * Further properties *)

(** ** The table under the resolvers *)

Lemma approveActions_store actionIDs db :
  snd (approveActions actionIDs db) = snd (update_status APPROVED actionIDs db).
Proof.
  unfold approveActions.
  destruct (update_status APPROVED actionIDs db) as [updated db'].
  destruct (List.length updated =? 0)%nat; reflexivity.
Qed.

Lemma cancelActions_store actionIDs db :
  snd (cancelActions actionIDs db) = snd (update_status CANCELED actionIDs db).
Proof.
  unfold cancelActions.
  destruct (update_status CANCELED actionIDs db) as [updated db'].
  destruct (List.length updated =? 0)%nat; reflexivity.
Qed.

Lemma approveActions_error actionIDs db :
  is_error (fst (approveActions actionIDs db))
  = (List.length (filter (id_in actionIDs) (rows db)) =? 0)%nat.
Proof.
  unfold approveActions, update_status. rewrite length_map.
  destruct (List.length _ =? 0)%nat; reflexivity.
Qed.

Lemma cancelActions_error actionIDs db :
  is_error (fst (cancelActions actionIDs db))
  = (List.length (filter (id_in actionIDs) (rows db)) =? 0)%nat.
Proof.
  unfold cancelActions, update_status. rewrite length_map.
  destruct (List.length _ =? 0)%nat; reflexivity.
Qed.

Lemma id_in_set_status ids s a : id_in ids (set_status s a) = id_in ids a.
Proof. reflexivity. Qed.

Lemma filter_none_when {A} (p : A -> bool) l :
  (forall a, In a l -> p a = false) -> filter p l = [].
Proof.
  induction l as [| a l IH]; intros H; simpl; [reflexivity |].
  rewrite (H a (or_introl eq_refl)). apply IH. intros b Hb. apply H. now right.
Qed.

Lemma filter_all_when {A} (p : A -> bool) l :
  (forall a, In a l -> p a = true) -> filter p l = l.
Proof.
  induction l as [| a l IH]; intros H; simpl; [reflexivity |].
  rewrite (H a (or_introl eq_refl)). f_equal. apply IH.
  intros b Hb. apply H. now right.
Qed.

Lemma filter_map_set_status ids s l :
  filter (id_in ids) (map (set_status s) l)
  = map (set_status s) (filter (id_in ids) l).
Proof.
  induction l as [| a l IH]; simpl; [reflexivity |].
  rewrite id_in_set_status. destruct (id_in ids a); simpl; now rewrite IH.
Qed.

Lemma update_status_ids s ids db :
  Permutation (map id (rows (snd (update_status s ids db)))) (map id (rows db)).
Proof.
  eapply Permutation_trans.
  - apply Permutation_map. apply update_status_perm.
  - rewrite map_map. erewrite map_ext; [apply Permutation_refl |].
    intros a. destruct (id_in ids a); reflexivity.
Qed.

Lemma Store_wf_same_ids (db db' : Store) :
  Permutation (map id (rows db')) (map id (rows db)) ->
  nextId db' = nextId db ->
  Store_wf db -> Store_wf db'.
Proof.
  intros Hids Hnext [Hnd Hlt]. split.
  - apply (Permutation_NoDup (Permutation_sym Hids) Hnd).
  - apply (proj2 (Forall_map id (fun i => i < nextId db) (rows db))) in Hlt.
    rewrite <- Hnext in Hlt.
    apply (Permutation_Forall (Permutation_sym Hids)) in Hlt.
    exact (proj1 (Forall_map id (fun i => i < nextId db') (rows db')) Hlt).
Qed.

Lemma update_status_wf s ids db :
  Store_wf db -> Store_wf (snd (update_status s ids db)).
Proof.
  apply Store_wf_same_ids; [apply update_status_ids | reflexivity].
Qed.

(** After an update the rows of the given ids are the updated ones, and the
    others are the ones that were there, in their order. *)
Lemma update_status_matching s ids db :
  filter (id_in ids) (rows (snd (update_status s ids db)))
  = map (set_status s) (filter (id_in ids) (rows db)).
Proof.
  simpl. rewrite filter_app, filter_twice, filter_map_set_status.
  rewrite (filter_none_when _ (rows db)), app_nil_l.
  - f_equal. apply filter_all_when. intros a Ha. apply filter_In in Ha. tauto.
  - intros a _. destruct (id_in ids a); reflexivity.
Qed.

Lemma update_status_unmatched s ids db :
  filter (fun a => negb (id_in ids a)) (rows (snd (update_status s ids db)))
  = filter (fun a => negb (id_in ids a)) (rows db).
Proof.
  simpl. rewrite filter_app.
  rewrite (filter_none_when _ (map _ _)), app_nil_r.
  - apply filter_all_when. intros a Ha. apply filter_In in Ha. tauto.
  - intros a Ha. apply in_map_iff in Ha. destruct Ha as (b & Hb & Hin).
    subst a. apply filter_In in Hin. rewrite id_in_set_status.
    destruct Hin as [_ Hin]. now rewrite Hin.
Qed.

Lemma update_status_twice s s' ids db :
  snd (update_status s ids (snd (update_status s' ids db)))
  = snd (update_status s ids db).
Proof.
  unfold update_status at 1. cbn [snd].
  rewrite update_status_matching, update_status_unmatched, map_map.
  reflexivity.
Qed.

(** X1.  Approving and canceling are idempotent and the last one wins: a
    second [cancel] of the same ids leaves the table as the first did and
    fails or succeeds as the first did, and [approve] after [cancel] of the
    same ids leaves the table as [approve] alone would. *)
Theorem approve_cancel_last_write_wins :
  forall (actionIDs : list Z) (db : Store),
    let canceled := snd (cancelActions actionIDs db) in
    snd (cancelActions actionIDs canceled) = canceled /\
    is_error (fst (cancelActions actionIDs canceled))
    = is_error (fst (cancelActions actionIDs db)) /\
    snd (approveActions actionIDs canceled) = snd (approveActions actionIDs db) /\
    snd (cancelActions actionIDs (snd (approveActions actionIDs db))) = canceled /\
    snd (approveActions actionIDs (snd (approveActions actionIDs db)))
    = snd (approveActions actionIDs db).
Proof.
  intros actionIDs db canceled. subst canceled.
  repeat (rewrite cancelActions_store || rewrite approveActions_store).
  rewrite !update_status_twice.
  repeat split.
  rewrite !cancelActions_error, update_status_matching, length_map.
  reflexivity.
Qed.

(** X2.  An [approve] or [cancel] that fails has changed nothing, and with an
    empty list of ids both fail. *)
Theorem failed_update_leaves_table_unchanged :
  forall (actionIDs : list Z) (db : Store),
    (is_error (fst (approveActions actionIDs db)) = true ->
     snd (approveActions actionIDs db) = db) /\
    (is_error (fst (cancelActions actionIDs db)) = true ->
     snd (cancelActions actionIDs db) = db) /\
    fst (approveActions [] db) = inl (NoActionsUpdated APPROVED) /\
    fst (cancelActions [] db) = inl (NoActionsUpdated CANCELED).
Proof.
  intros actionIDs db.
  assert (Hsame : forall s,
             (List.length (filter (id_in actionIDs) (rows db)) =? 0)%nat = true ->
             snd (update_status s actionIDs db) = db).
  { intros s Hlen. apply Nat.eqb_eq, length_zero_iff_nil in Hlen.
    destruct db as [l n]. simpl in *. rewrite Hlen. simpl.
    rewrite app_nil_r. f_equal.
    apply filter_all_when. intros a Ha.
    destruct (id_in actionIDs a) eqn:E; [| reflexivity].
    assert (Hin : In a (filter (id_in actionIDs) l)) by (apply filter_In; auto).
    rewrite Hlen in Hin. destruct Hin. }
  assert (Hnil : filter (id_in []) (rows db) = []).
  { apply filter_none_when. reflexivity. }
  split; [| split; [| split]].
  - rewrite approveActions_error, approveActions_store. apply Hsame.
  - rewrite cancelActions_error, cancelActions_store. apply Hsame.
  - unfold approveActions, update_status. now rewrite Hnil.
  - unfold cancelActions, update_status. now rewrite Hnil.
Qed.

Lemma failed_update_leaves_table_unchanged_witness :
  let db :=
    mkStore [Sample.action 1 ActionType.COLLECT None (Some "0xa1") None QUEUED]
            2 in
  snd (approveActions [7] db) = db /\ snd (cancelActions [7] db) = db.
Proof.
  intros db.
  destruct (failed_update_leaves_table_unchanged [7] db) as (Ha & Hc & _).
  split; [apply Ha | apply Hc]; reflexivity.
Defined.

(** X3.  [approve] and [cancel] change the status column only: apart from
    the status and from the order in which the rows are read back, the table
    holds the same rows as before, with the same ids, and the id sequence is
    as it was; the primary key is kept. *)
Theorem approve_cancel_change_status_only :
  forall (actionIDs : list Z) (db : Store),
    let approved := snd (approveActions actionIDs db) in
    let canceled := snd (cancelActions actionIDs db) in
    Permutation (map (set_status QUEUED) (rows approved))
                (map (set_status QUEUED) (rows db)) /\
    Permutation (map (set_status QUEUED) (rows canceled))
                (map (set_status QUEUED) (rows db)) /\
    nextId approved = nextId db /\ nextId canceled = nextId db /\
    (Store_wf db -> Store_wf approved /\ Store_wf canceled).
Proof.
  intros actionIDs db approved canceled. subst approved canceled.
  rewrite approveActions_store, cancelActions_store.
  assert (H : forall s,
             Permutation
               (map (set_status QUEUED)
                    (rows (snd (update_status s actionIDs db))))
               (map (set_status QUEUED) (rows db))).
  { intros s. eapply Permutation_trans.
    - apply Permutation_map. apply update_status_perm.
    - rewrite map_map. erewrite map_ext; [apply Permutation_refl |].
      intros a. destruct (id_in actionIDs a); reflexivity. }
  split; [apply H |]. split; [apply H |].
  split; [reflexivity |]. split; [reflexivity |].
  intros Hwf. split; apply update_status_wf; exact Hwf.
Qed.

Lemma approve_cancel_change_status_only_witness :
  let db :=
    mkStore [Sample.action 1 ActionType.COLLECT None (Some "0xa1") None QUEUED]
            2 in
  Store_wf (snd (approveActions [1] db)) /\ Store_wf (snd (cancelActions [1] db)).
Proof.
  intros db.
  apply (approve_cancel_change_status_only [1] db).
  split; simpl.
  - repeat constructor. intros [].
  - repeat constructor.
Defined.

(** ** Queueing and looking up *)

Lemma number_from_ids (i : Z) (actions : list ActionInput) :
  map id (number_from i actions)
  = map (fun n => i + Z.of_nat n) (seq 0 (List.length actions)).
Proof.
  revert i. induction actions as [| a rest IH]; intros i; simpl; [reflexivity |].
  rewrite Z.add_0_r. f_equal. rewrite IH, <- seq_shift, map_map.
  apply map_ext. intros n. lia.
Qed.

Lemma number_from_ids_bounds (i : Z) (actions : list ActionInput) r :
  In r (number_from i actions) ->
  i <= id r < i + Z.of_nat (List.length actions).
Proof.
  intros Hin. apply (in_map id) in Hin. rewrite number_from_ids in Hin.
  apply in_map_iff in Hin. destruct Hin as (n & Hn & Hseq).
  apply in_seq in Hseq. lia.
Qed.

Lemma number_from_ids_NoDup (i : Z) (actions : list ActionInput) :
  NoDup (map id (number_from i actions)).
Proof.
  revert i. induction actions as [| a rest IH]; intros i; simpl; constructor.
  - intros Hin. apply in_map_iff in Hin. destruct Hin as (r & Hr & Hin).
    apply number_from_ids_bounds in Hin. simpl in Hr. lia.
  - apply IH.
Qed.

(** X4.  [queueActions] never fails; it appends the new rows after the
    existing ones, which it leaves alone, numbers them consecutively from the
    sequence, and keeps the primary key: the new ids are distinct from each
    other and from every id already in the table. *)
Theorem queueActions_appends_fresh_rows :
  forall (actions : list ActionInput) (db : Store),
    Store_wf db ->
    let out := queueActions actions db in
    exists created,
      fst out = inr created /\
      rows (snd out) = rows db ++ created /\
      map id created
      = map (fun n => nextId db + Z.of_nat n) (seq 0 (List.length actions)) /\
      (forall r, In r created -> ~ In (id r) (map id (rows db))) /\
      Store_wf (snd out).
Proof.
  intros actions db [Hnd Hlt] out. subst out.
  exists (number_from (nextId db) actions). unfold queueActions. simpl.
  assert (Hfresh : forall r, In r (number_from (nextId db) actions) ->
                             ~ In (id r) (map id (rows db))).
  { intros r Hr Hin. apply number_from_ids_bounds in Hr.
    apply in_map_iff in Hin. destruct Hin as (a & Ha & Hin).
    rewrite Forall_forall in Hlt. specialize (Hlt a Hin). lia. }
  split; [reflexivity |]. split; [reflexivity |].
  split; [apply number_from_ids |]. split; [exact Hfresh |].
  split; simpl.
  - rewrite map_app. apply NoDup_app.
    + exact Hnd.
    + apply number_from_ids_NoDup.
    + intros i Hi Hi'. apply in_map_iff in Hi'. destruct Hi' as (r & Hr & Hin).
      subst i. exact (Hfresh r Hin Hi).
  - apply Forall_app. split.
    + eapply Forall_impl; [| exact Hlt]. intros a Ha. simpl in *. lia.
    + apply Forall_forall. intros r Hr.
      apply number_from_ids_bounds in Hr. lia.
Qed.

Lemma queueActions_appends_fresh_rows_witness :
  let db :=
    mkStore [Sample.action 1 ActionType.COLLECT None (Some "0xa1") None QUEUED]
            2 in
  let input :=
    mkActionInput ActionType.ALLOCATE (Some "QmB") None (Some "10000") None None
                  "indexerCLI" "manual" QUEUED (Some 0) in
  let out := queueActions [input; input] db in
  exists created,
    fst out = inr created /\
    rows (snd out) = rows db ++ created /\
    map id created = map (fun n => 2 + Z.of_nat n) (seq 0 2) /\
    (forall r, In r created -> ~ In (id r) (map id (rows db))) /\
    Store_wf (snd out).
Proof.
  intros db input.
  apply (@queueActions_appends_fresh_rows [input; input] db).
  split; simpl.
  - repeat constructor. intros [].
  - repeat constructor.
Defined.

Lemma find_number_from (i : Z) (actions : list ActionInput) n a :
  nth_error actions n = Some a ->
  find (fun r => id r =? i + Z.of_nat n) (number_from i actions)
  = Some (row_of_input (i + Z.of_nat n) a).
Proof.
  revert i n. induction actions as [| x rest IH]; intros i n Hn.
  - destruct n; discriminate.
  - destruct n as [| n]; simpl in *.
    + inversion Hn; subst. rewrite Z.add_0_r, Z.eqb_refl. reflexivity.
    + destruct (i =? i + Z.pos (Pos.of_succ_nat n)) eqn:E;
        [apply Z.eqb_eq in E; lia |].
      replace (i + Z.pos (Pos.of_succ_nat n)) with (i + 1 + Z.of_nat n) by lia.
      now apply IH.
Qed.

Lemma find_by_id (l : list Action) r :
  NoDup (map id l) -> In r l -> find (fun a => id a =? id r) l = Some r.
Proof.
  induction l as [| x l IH]; intros Hnd Hin; [destruct Hin |].
  simpl in Hnd. inversion Hnd as [| y m Hfresh Hnd']; subst. simpl.
  destruct Hin as [Hx | Hin].
  - subst x. now rewrite Z.eqb_refl.
  - destruct (id x =? id r) eqn:E.
    + apply Z.eqb_eq in E. exfalso. apply Hfresh. rewrite E. now apply in_map.
    + now apply IH.
Qed.

Lemma find_app_l {A} (p : A -> bool) l1 l2 x :
  find p l1 = Some x -> find p (l1 ++ l2) = Some x.
Proof.
  induction l1 as [| a l1 IH]; simpl; [discriminate |].
  destruct (p a); auto.
Qed.

Lemma find_app_r {A} (p : A -> bool) l1 l2 :
  (forall a, In a l1 -> p a = false) -> find p (l1 ++ l2) = find p l2.
Proof.
  induction l1 as [| a l1 IH]; intros H; simpl; [reflexivity |].
  rewrite (H a (or_introl eq_refl)). apply IH. intros b Hb. apply H. now right.
Qed.

(** X5.  Insert and look up: after [queueActions], the [action] query finds
    the n-th submitted action under the id [nextId + n], with the columns of
    its input, and still finds every row that was there before. *)
Theorem queued_action_is_found_by_id :
  forall (actions : list ActionInput) (db : Store),
    Store_wf db ->
    let db' := snd (queueActions actions db) in
    (forall n a,
        nth_error actions n = Some a ->
        Resolvers.action (nextId db + Z.of_nat n) db'
        = Some (row_of_input (nextId db + Z.of_nat n) a)) /\
    (forall r, In r (rows db) -> Resolvers.action (id r) db' = Some r).
Proof.
  intros actions db [Hnd Hlt] db'. subst db'.
  unfold Resolvers.action, queueActions. simpl.
  rewrite Forall_forall in Hlt. split.
  - intros n a Hn. rewrite find_app_r.
    + now apply find_number_from.
    + intros r Hr. specialize (Hlt r Hr). apply Z.eqb_neq. lia.
  - intros r Hr. apply find_app_l. now apply find_by_id.
Qed.

Lemma queued_action_is_found_by_id_witness :
  let old := Sample.action 1 ActionType.COLLECT None (Some "0xa1") None QUEUED in
  let db := mkStore [old] 2 in
  let input :=
    mkActionInput ActionType.ALLOCATE (Some "QmB") None (Some "10000") None None
                  "indexerCLI" "manual" QUEUED (Some 0) in
  let db' := snd (queueActions [input] db) in
  Resolvers.action (2 + Z.of_nat 0) db' = Some (row_of_input (2 + Z.of_nat 0) input)
  /\ Resolvers.action 1 db' = Some old.
Proof.
  intros old db input db'.
  assert (Hwf : Store_wf db).
  { split; simpl; [repeat constructor; intros [] | repeat constructor]. }
  destruct (@queued_action_is_found_by_id [input] db Hwf) as [Hnew Hold].
  split.
  - apply (Hnew 0%nat input). reflexivity.
  - apply (Hold old). left. reflexivity.
Defined.

(** ** Fetching *)

Lemma where_eq_string (wanted : option string) (v : string) :
  where_eq String.eqb wanted v = true <-> (forall x, wanted = Some x -> v = x).
Proof.
  destruct wanted as [x |]; simpl.
  - rewrite String.eqb_eq. split; [intros H y Hy; congruence | auto].
  - split; [discriminate | reflexivity].
Qed.

Lemma where_eq_status (wanted : option ActionStatus) (v : ActionStatus) :
  where_eq ActionStatus_eqb wanted v = true <->
  (forall x, wanted = Some x -> v = x).
Proof.
  destruct wanted as [x |]; simpl.
  - rewrite ActionStatus_eqb_eq. split; [intros H y Hy; congruence | auto].
  - split; [discriminate | reflexivity].
Qed.

(** X6.  [fetchActions] returns, in table order, exactly the rows that agree
    with the filter on every field the filter sets; a field it leaves out
    constrains nothing, so the empty filter returns the whole table. *)
Theorem fetchActions_exact_match_on_set_fields :
  forall (f : ActionFilter) (db : Store),
    (forall a,
        In a (fetchActions f db) <->
        In a (rows db) /\
        (forall t, f_type f = Some t -> type a = t) /\
        (forall s, f_status f = Some s -> status a = s) /\
        (forall s, f_source f = Some s -> source a = s) /\
        (forall s, f_reason f = Some s -> reason a = s)) /\
    fetchActions (mkFilter None None None None) db = rows db.
Proof.
  intros f db. split.
  - intros a. unfold fetchActions, matches. rewrite filter_In.
    rewrite !andb_true_iff, !where_eq_string, where_eq_status. tauto.
  - unfold fetchActions, matches. simpl.
    induction (rows db) as [| a l IH]; simpl; [reflexivity | now rewrite IH].
Qed.

(** X7.  After a successful [approve], fetching the APPROVED actions returns
    every action whose id was given, and whatever else it returns was
    APPROVED already. *)
Theorem approved_actions_are_fetched :
  forall (actionIDs : list Z) (db : Store) (r : Action),
    In r (rows db) ->
    id_in actionIDs r = true ->
    let out := approveActions actionIDs db in
    let fetched :=
      fetchActions (mkFilter None (Some APPROVED) None None) (snd out) in
    is_error (fst out) = false /\
    In (set_status APPROVED r) fetched /\
    (forall a, In a fetched ->
               id_in actionIDs a = true \/
               (In a (rows db) /\ status a = APPROVED)).
Proof.
  intros actionIDs db r Hr Hid out fetched. subst out fetched.
  rewrite approveActions_error, approveActions_store.
  split; [| split].
  - apply Nat.eqb_neq. intros Hlen. apply length_zero_iff_nil in Hlen.
    assert (Hin : In r (filter (id_in actionIDs) (rows db)))
      by (apply filter_In; auto).
    rewrite Hlen in Hin. destruct Hin.
  - unfold fetchActions. apply filter_In. split.
    + apply update_status_in. exists r. now rewrite Hid.
    + reflexivity.
  - intros a Ha. unfold fetchActions in Ha. apply filter_In in Ha.
    destruct Ha as [Ha Hm]. apply update_status_in in Ha.
    destruct Ha as (b & Hin & Hb).
    destruct (id_in actionIDs b) eqn:E; subst a.
    + left. exact E.
    + right. split; [exact Hin |].
      unfold matches, where_eq in Hm. simpl in Hm.
      rewrite !andb_true_r in Hm. now apply ActionStatus_eqb_eq.
Qed.

Lemma approved_actions_are_fetched_witness :
  let canceled :=
    Sample.action 1 ActionType.COLLECT None (Some "0xa1") None CANCELED in
  let db := mkStore [canceled] 2 in
  let out := approveActions [1] db in
  let fetched :=
    fetchActions (mkFilter None (Some APPROVED) None None) (snd out) in
  is_error (fst out) = false /\
  In (set_status APPROVED canceled) fetched /\
  (forall a, In a fetched ->
             id_in [1] a = true \/ (In a (rows db) /\ status a = APPROVED)).
Proof.
  intros canceled db.
  apply (@approved_actions_are_fetched [1] db canceled).
  - left. reflexivity.
  - reflexivity.
Defined.

(** ** What [executeActions] does to the table *)

Lemma selected_batches (actionIDs : list Z) (force : bool) (db : Store) a :
  In a ((if force then [] else findAll_status APPROVED db)
        ++ filter (id_in actionIDs) (findAll_status QUEUED db)) <->
  In a (rows db) /\ selected actionIDs force a = true.
Proof.
  unfold selected, findAll_status. rewrite in_app_iff, filter_twice.
  rewrite orb_true_iff, !andb_true_iff. destruct force; simpl.
  - rewrite filter_In, andb_true_iff. intuition discriminate.
  - rewrite !filter_In, andb_true_iff. intuition.
Qed.

Lemma ids_of_statusless (l l' : list Action) :
  Permutation (map (set_status QUEUED) l') (map (set_status QUEUED) l) ->
  Permutation (map id l') (map id l).
Proof.
  intros H. apply (Permutation_map id) in H. rewrite !map_map in H. exact H.
Qed.

Lemma settle_all_statusless log l :
  Permutation (map (set_status QUEUED) (settle_all log l))
              (map (set_status QUEUED) l).
Proof.
  eapply Permutation_trans.
  - apply Permutation_map. apply settle_all_perm.
  - rewrite map_map. erewrite map_ext; [apply Permutation_refl |].
    intros a.
    destruct (mark_all_cases log a) as [E | (b & ok & _ & _ & E)];
      rewrite E; reflexivity.
Qed.

Lemma selected_after_outcome actionIDs (force : bool) ok r :
  selected actionIDs force (set_status (outcome_status ok) r) = false.
Proof. unfold selected. destruct ok, force; reflexivity. Qed.

Lemma fetch_approved db :
  fetchActions (mkFilter None (Some APPROVED) None None) db
  = findAll_status APPROVED db.
Proof.
  unfold fetchActions, findAll_status. apply filter_ext. intros a.
  unfold matches, where_eq. simpl. now rewrite !andb_true_r.
Qed.

Section RowFate.
Variable lib : Lib.
Variable allocationManager : AllocationManagerOps.
Context {W : Type} (h : Handler W).

(** What the dispatches of a call do to a row of the table. *)
Lemma executeActions_mark actionIDs (force : bool) db w r :
  NoDup (map id (rows db)) ->
  In r (rows db) ->
  let ex := executeActions lib allocationManager h actionIDs force db w in
  let log := phase1 ex ++ phase2 ex in
  (selected actionIDs force r = false /\ mark_all log r = r) \/
  (selected actionIDs force r = true /\
   exists ok, In (r, ok) log /\
              mark_all log r = set_status (outcome_status ok) r).
Proof.
  intros Hnd Hr ex log. subst log ex.
  rewrite executeActions_eq by exact Hnd. simpl.
  set (batch1 := if force then [] else findAll_status APPROVED db).
  set (batch2 := filter (id_in actionIDs) (findAll_status QUEUED db)).
  set (o1 := outcomes_in_turn lib allocationManager h batch1 w).
  set (o2 := outcomes_in_turn lib allocationManager h batch2 (snd o1)).
  set (log := fst o1 ++ fst o2).
  assert (Hlog : map fst log = batch1 ++ batch2).
  { unfold log. rewrite map_app. f_equal; apply outcomes_in_turn_actions. }
  assert (Hids : NoDup (dispatched_ids log)).
  { rewrite dispatched_ids_actions, Hlog. now apply batches_ids_NoDup. }
  destruct (selected actionIDs force r) eqn:Hsel.
  - right. split; [reflexivity |].
    assert (Hin : In r (map fst log)).
    { rewrite Hlog. apply selected_batches. auto. }
    apply in_map_iff in Hin. destruct Hin as ([a ok] & Ha & Hin).
    simpl in Ha. subst a. exists ok. split; [exact Hin |].
    now apply (mark_all_dispatched log r ok).
  - left. split; [reflexivity |].
    apply mark_all_not_dispatched. intros Hin.
    apply dispatched_ids_in in Hin. destruct Hin as (d & Hd & Hid).
    assert (Hb : In (fst d) (batch1 ++ batch2)).
    { rewrite <- Hlog. now apply in_map. }
    apply selected_batches in Hb. destruct Hb as [Hrow Hs].
    assert (fst d = r) by (apply (unique_row (rows db)); auto).
    congruence.
Qed.

Lemma executeActions_rows actionIDs (force : bool) db w x :
  NoDup (map id (rows db)) ->
  let ex := executeActions lib allocationManager h actionIDs force db w in
  In x (rows (store_after ex)) <->
  In x (map (mark_all (phase1 ex ++ phase2 ex)) (rows db)).
Proof.
  intros Hnd ex. subst ex. rewrite executeActions_eq by exact Hnd. simpl.
  apply settled_rows_in.
Qed.

(** Where each row of the table ends up. *)
Lemma executeActions_row_fate actionIDs (force : bool) db w r :
  NoDup (map id (rows db)) ->
  In r (rows db) ->
  let ex := executeActions lib allocationManager h actionIDs force db w in
  (selected actionIDs force r = false /\ In r (rows (store_after ex))) \/
  (selected actionIDs force r = true /\
   exists ok, In (r, ok) (phase1 ex ++ phase2 ex) /\
              In (set_status (outcome_status ok) r) (rows (store_after ex))).
Proof.
  intros Hnd Hr ex.
  assert (Hin : In (mark_all (phase1 ex ++ phase2 ex) r) (rows (store_after ex))).
  { apply executeActions_rows; [exact Hnd |]. now apply in_map. }
  pose proof (executeActions_mark actionIDs force db w r Hnd Hr) as HM.
  cbv zeta in HM. fold ex in HM.
  destruct HM as [[Hs E] | [Hs (ok & Hlog & E)]]; rewrite E in Hin.
  - left. now split.
  - right. split; [exact Hs |]. exists ok. now split.
Qed.

(** Where each row of the table afterwards comes from. *)
Lemma executeActions_row_origin actionIDs (force : bool) db w x :
  NoDup (map id (rows db)) ->
  let ex := executeActions lib allocationManager h actionIDs force db w in
  In x (rows (store_after ex)) ->
  exists r, In r (rows db) /\
            ((selected actionIDs force r = false /\ x = r) \/
             (selected actionIDs force r = true /\
              exists ok, In (r, ok) (phase1 ex ++ phase2 ex) /\
                         x = set_status (outcome_status ok) r)).
Proof.
  intros Hnd ex Hx.
  apply executeActions_rows in Hx; [| exact Hnd].
  cbv zeta in Hx. fold ex in Hx.
  apply in_map_iff in Hx. destruct Hx as (r & Hx & Hr).
  exists r. split; [exact Hr |].
  pose proof (executeActions_mark actionIDs force db w r Hnd Hr) as HM.
  cbv zeta in HM. fold ex in HM.
  destruct HM as [[Hs E] | [Hs (ok & Hlog & E)]]; rewrite E in Hx.
  - left. now split.
  - right. split; [exact Hs |]. exists ok. now split.
Qed.

Lemma executeActions_ids actionIDs (force : bool) db w :
  let ex := executeActions lib allocationManager h actionIDs force db w in
  Permutation (map (set_status QUEUED) (rows (store_after ex)))
              (map (set_status QUEUED) (rows db)) /\
  nextId (store_after ex) = nextId db.
Proof.
  intros ex. subst ex. unfold executeActions.
  assert (Hloop : forall batch u d v,
             let '(_, d', _, _) :=
               executeLoop lib allocationManager h batch u d v in
             Permutation (map (set_status QUEUED) (rows d'))
                         (map (set_status QUEUED) (rows d))
             /\ nextId d' = nextId d).
  { intros batch u d v. rewrite executeLoop_eq. split; [| reflexivity].
    simpl. apply settle_all_statusless. }
  destruct force; simpl.
  - specialize (Hloop (filter (id_in actionIDs) (findAll_status QUEUED db))
                      [] db w).
    destruct (executeLoop _ _ _ _ _ _ _) as [[[u d'] w'] log]. exact Hloop.
  - pose proof (Hloop (findAll_status APPROVED db) [] db w) as H1.
    destruct (executeLoop lib allocationManager h
                          (findAll_status APPROVED db) [] db w)
      as [[[u1 d1] w1] log1].
    pose proof (Hloop (filter (id_in actionIDs) (findAll_status QUEUED d1))
                      u1 d1 w1) as H2.
    destruct (executeLoop _ _ _ _ _ _ _) as [[[u2 d2] w2] log2].
    simpl. destruct H1 as [H1 H1'], H2 as [H2 H2'].
    split; [eapply Permutation_trans; eassumption | congruence].
Qed.

Lemma executeActions_keeps_key actionIDs (force : bool) db w :
  NoDup (map id (rows db)) ->
  NoDup (map id (rows (store_after
                         (executeActions lib allocationManager h actionIDs
                                         force db w)))).
Proof.
  intros Hnd.
  destruct (executeActions_ids actionIDs force db w) as [Hrows _].
  apply ids_of_statusless in Hrows.
  apply (Permutation_NoDup (Permutation_sym Hrows) Hnd).
Qed.

Lemma executeActions_leaves_nothing_selected actionIDs (force : bool) db w r :
  NoDup (map id (rows db)) ->
  In r (rows (store_after
                (executeActions lib allocationManager h actionIDs force db w))) ->
  selected actionIDs force r = false.
Proof.
  intros Hnd Hin.
  apply executeActions_row_origin in Hin; [| exact Hnd].
  destruct Hin as (r0 & _ & [[Hs E] | [_ (ok & _ & E)]]); subst r.
  - exact Hs.
  - apply selected_after_outcome.
Qed.

Lemma executeActions_nothing_to_do actionIDs (force : bool) db w :
  NoDup (map id (rows db)) ->
  (forall r, In r (rows db) -> selected actionIDs force r = false) ->
  executeActions lib allocationManager h actionIDs force db w
  = mkExecuted [] db w [] [].
Proof.
  intros Hnd Hnone. rewrite executeActions_eq by exact Hnd.
  assert (Hb : (if force then [] else findAll_status APPROVED db)
               ++ filter (id_in actionIDs) (findAll_status QUEUED db) = []).
  { destruct (_ ++ _) as [| a l] eqn:E; [reflexivity |].
    assert (Ha : In a (a :: l)) by now left.
    rewrite <- E in Ha. apply selected_batches in Ha.
    destruct Ha as [Ha Hs]. rewrite (Hnone a Ha) in Hs. discriminate. }
  apply app_eq_nil in Hb. destruct Hb as [Hb1 Hb2].
  rewrite Hb1, Hb2. simpl. destruct db; reflexivity.
Qed.
End RowFate.

(** X8.  [executeActions] changes the status column only, and only of the
    actions it picks up (the APPROVED ones unless [force], and the QUEUED
    ones named in [actionIDs]): apart from the status and from the order in
    which the rows are read back, the table holds the same rows as before and
    the id sequence is as it was; the primary key is kept; a row that was
    not picked up is still in the table as it was, a row that was picked up
    is in the table as SUCCESS or FAILED, and the table holds nothing else. *)
Theorem executeActions_changes_status_of_selected_only :
  forall (lib : Lib) (am : AllocationManagerOps) (W : Type) (h : Handler W)
         (actionIDs : list Z) (force : bool) (db : Store) (w : W),
    Store_wf db ->
    let ex := executeActions lib am h actionIDs force db w in
    Permutation (map (set_status QUEUED) (rows (store_after ex)))
                (map (set_status QUEUED) (rows db)) /\
    nextId (store_after ex) = nextId db /\
    Store_wf (store_after ex) /\
    (forall r, In r (rows db) ->
               selected actionIDs force r = false ->
               In r (rows (store_after ex))) /\
    (forall r, In r (rows db) ->
               selected actionIDs force r = true ->
               In (set_status SUCCESS r) (rows (store_after ex)) \/
               In (set_status FAILED r) (rows (store_after ex))) /\
    (forall x, In x (rows (store_after ex)) ->
               exists r, In r (rows db) /\
                         ((selected actionIDs force r = false /\ x = r) \/
                          (selected actionIDs force r = true /\
                           (x = set_status SUCCESS r \/
                            x = set_status FAILED r)))).
Proof.
  intros lib am W h actionIDs force db w Hwf ex.
  destruct (executeActions_ids lib am h actionIDs force db w) as [Hrows Hnext].
  fold ex in Hrows, Hnext.
  split; [exact Hrows |]. split; [exact Hnext |].
  split; [| split; [| split]].
  - apply Store_wf_same_ids with (db := db); auto.
    now apply ids_of_statusless.
  - intros r Hr Hsel.
    destruct (executeActions_row_fate lib am h actionIDs force db w r
                                      (proj1 Hwf) Hr)
      as [[_ H] | [Hs _]]; [exact H | congruence].
  - intros r Hr Hsel.
    destruct (executeActions_row_fate lib am h actionIDs force db w r
                                      (proj1 Hwf) Hr)
      as [[Hs _] | [_ (ok & _ & H)]]; [congruence |].
    fold ex in H. destruct ok; [left | right]; exact H.
  - intros x Hx.
    destruct (executeActions_row_origin lib am h actionIDs force db w x
                                        (proj1 Hwf) Hx)
      as (r & Hr & [[Hs E] | [Hs (ok & _ & E)]]); exists r; (split; [exact Hr |]).
    + left. now split.
    + right. split; [exact Hs |]. destruct ok; [left | right]; exact E.
Qed.

Lemma executeActions_changes_status_of_selected_only_witness :
  let approved :=
    Sample.action 1 ActionType.COLLECT None (Some "0xa1") None APPROVED in
  let canceled :=
    Sample.action 2 ActionType.COLLECT None (Some "0xa1") None CANCELED in
  let db := mkStore [approved; canceled] 3 in
  let ex := executeActions Sample.lib Sample.manager (Sample.handler 9)
                           [2] false db 0%nat in
  Store_wf (store_after ex) /\
  In canceled (rows (store_after ex)) /\
  (In (set_status SUCCESS approved) (rows (store_after ex))
   \/ In (set_status FAILED approved) (rows (store_after ex))).
Proof.
  intros approved canceled db.
  assert (Hwf : Store_wf db).
  { split; simpl; [| repeat constructor].
    repeat constructor; simpl; intuition discriminate. }
  destruct (@executeActions_changes_status_of_selected_only
              Sample.lib Sample.manager nat (Sample.handler 9) [2] false db
              0%nat Hwf)
    as (_ & _ & Hwf' & Hkeep & Hmark & _).
  split; [exact Hwf' |]. split.
  - apply (Hkeep canceled); [right; left; reflexivity | reflexivity].
  - apply (Hmark approved); [left; reflexivity | reflexivity].
Defined.

(** X9.  [executeActions] finishes what it picks up: afterwards no action is
    left that the same call would pick up again (no APPROVED action unless
    [force], no QUEUED action named in [actionIDs]), so repeating the call
    right away dispatches nothing and changes neither table nor world. *)
Theorem executeActions_repeated_does_nothing :
  forall (lib : Lib) (am : AllocationManagerOps) (W : Type) (h : Handler W)
         (actionIDs : list Z) (force : bool) (db : Store) (w : W),
    NoDup (map id (rows db)) ->
    let ex := executeActions lib am h actionIDs force db w in
    let again :=
      executeActions lib am h actionIDs force (store_after ex) (world_after ex)
    in
    (forall r, In r (rows (store_after ex)) ->
               selected actionIDs force r = false) /\
    phase1 again = [] /\ phase2 again = [] /\
    store_after again = store_after ex /\
    world_after again = world_after ex.
Proof.
  intros lib am W h actionIDs force db w Hnd ex again.
  assert (Hnone : forall r, In r (rows (store_after ex)) ->
                            selected actionIDs force r = false).
  { intros r Hr. now apply (executeActions_leaves_nothing_selected
                              lib am h actionIDs force db w). }
  split; [exact Hnone |].
  subst again. rewrite executeActions_nothing_to_do; [repeat split | | exact Hnone].
  now apply executeActions_keeps_key.
Qed.

Lemma executeActions_repeated_does_nothing_witness :
  let db :=
    mkStore
      [Sample.action 1 ActionType.COLLECT None (Some "0xa1") None APPROVED;
       Sample.action 2 ActionType.ALLOCATE (Some "QmB") None (Some "x") QUEUED]
      3 in
  let ex := executeActions Sample.lib Sample.manager (Sample.handler 9)
                           [2] false db 0%nat in
  let again :=
    executeActions Sample.lib Sample.manager (Sample.handler 9) [2] false
                   (store_after ex) (world_after ex) in
  (forall r, In r (rows (store_after ex)) -> selected [2] false r = false) /\
  phase1 again = [] /\ phase2 again = [] /\
  store_after again = store_after ex /\
  world_after again = world_after ex.
Proof.
  intros db.
  apply (@executeActions_repeated_does_nothing
           Sample.lib Sample.manager nat (Sample.handler 9) [2] false db 0%nat).
  simpl. repeat constructor; simpl; intuition discriminate.
Defined.

(** X10.  One tick of the worker dispatches exactly the APPROVED actions, in
    the order they are read; the ids it passes on select nothing in the
    second phase; afterwards no action is APPROVED, every action that was
    not APPROVED is still in the table as it was, and a second tick right
    away dispatches nothing. *)
Theorem worker_tick_drains_approved_actions :
  forall (lib : Lib) (am : AllocationManagerOps) (W : Type) (h : Handler W)
         (db : Store) (w : W),
    NoDup (map id (rows db)) ->
    let ex := IndexerWorker.tick lib am h db w in
    let again :=
      IndexerWorker.tick lib am h (store_after ex) (world_after ex) in
    map fst (phase1 ex)
    = fetchActions (mkFilter None (Some APPROVED) None None) db /\
    phase2 ex = [] /\
    fetchActions (mkFilter None (Some APPROVED) None None) (store_after ex) = []
    /\
    (forall r, In r (rows db) -> status r <> APPROVED ->
               In r (rows (store_after ex))) /\
    phase1 again = [] /\ phase2 again = [] /\
    store_after again = store_after ex.
Proof.
  intros lib am W h db w Hnd ex again.
  set (ids := map id (fetchActions (mkFilter None (Some APPROVED) None None) db)).
  assert (Hsel : forall r, In r (rows db) ->
                           selected ids false r
                           = ActionStatus_eqb (status r) APPROVED).
  { intros r Hr. unfold selected. simpl.
    destruct (ActionStatus_eqb (status r) APPROVED) eqn:Ea; [reflexivity |].
    simpl. destruct (id_in ids r) eqn:Ei; [| apply andb_false_r].
    exfalso. unfold id_in in Ei. apply existsb_exists in Ei.
    destruct Ei as (i & Hi & Heq). apply Z.eqb_eq in Heq. subst i.
    unfold ids in Hi. apply in_map_iff in Hi. destruct Hi as (a & Ha & Hin).
    rewrite fetch_approved in Hin. apply filter_In in Hin.
    destruct Hin as [Hin Hst].
    assert (a = r) by (apply (unique_row (rows db)); auto). subst a.
    congruence. }
  assert (Hex : ex = executeActions lib am h ids false db w) by reflexivity.
  assert (Hq : filter (id_in ids) (findAll_status QUEUED db) = []).
  { apply filter_none_when. intros r Hr. apply filter_In in Hr.
    destruct Hr as [Hr Hst]. specialize (Hsel r Hr). unfold selected in Hsel.
    simpl in Hsel. rewrite Hst in Hsel. apply ActionStatus_eqb_eq in Hst.
    rewrite Hst in Hsel. simpl in Hsel. exact Hsel. }
  assert (Hafter : forall r, In r (rows (store_after ex)) ->
                             status r <> APPROVED).
  { intros r Hr Hst. rewrite Hex in Hr.
    apply (executeActions_leaves_nothing_selected lib am h ids false db w)
      in Hr; [| exact Hnd].
    unfold selected in Hr. rewrite Hst in Hr. discriminate. }
  assert (Hnone : fetchActions (mkFilter None (Some APPROVED) None None)
                               (store_after ex) = []).
  { rewrite fetch_approved. apply filter_none_when. intros r Hr.
    destruct (ActionStatus_eqb (status r) APPROVED) eqn:E; [| reflexivity].
    apply ActionStatus_eqb_eq in E. now apply Hafter in Hr. }
  assert (Hnd' : NoDup (map id (rows (store_after ex)))).
  { rewrite Hex. now apply executeActions_keeps_key. }
  assert (Hagain : again = mkExecuted [] (store_after ex) (world_after ex) [] []).
  { subst again. unfold IndexerWorker.tick. rewrite Hnone. simpl.
    apply executeActions_nothing_to_do; [exact Hnd' |].
    intros r Hr. unfold selected. simpl.
    destruct (ActionStatus_eqb (status r) APPROVED) eqn:E.
    - apply ActionStatus_eqb_eq in E. now apply Hafter in Hr.
    - apply andb_false_r. }
  rewrite Hagain. simpl.
  split; [| split; [| split; [| split; [| repeat split]]]].
  - rewrite Hex, executeActions_eq by exact Hnd. simpl.
    now rewrite outcomes_in_turn_actions, fetch_approved.
  - rewrite Hex, executeActions_eq by exact Hnd. simpl. now rewrite Hq.
  - exact Hnone.
  - intros r Hr Hst.
    destruct (executeActions_row_fate lib am h ids false db w r Hnd Hr)
      as [[_ H] | [Hs _]].
    + rewrite Hex. exact H.
    + rewrite Hsel in Hs by exact Hr.
      apply ActionStatus_eqb_eq in Hs. contradiction.
Qed.

Lemma worker_tick_drains_approved_actions_witness :
  let db :=
    mkStore
      [Sample.action 1 ActionType.COLLECT None (Some "0xa1") None APPROVED;
       Sample.action 2 ActionType.ALLOCATE (Some "QmB") None (Some "x") QUEUED]
      3 in
  let ex := IndexerWorker.tick Sample.lib Sample.manager (Sample.handler 9)
                               db 0%nat in
  let again :=
    IndexerWorker.tick Sample.lib Sample.manager (Sample.handler 9)
                       (store_after ex) (world_after ex) in
  map fst (phase1 ex)
  = fetchActions (mkFilter None (Some APPROVED) None None) db /\
  phase2 ex = [] /\
  fetchActions (mkFilter None (Some APPROVED) None None) (store_after ex) = []
  /\
  (forall r, In r (rows db) -> status r <> APPROVED ->
             In r (rows (store_after ex))) /\
  phase1 again = [] /\ phase2 again = [] /\
  store_after again = store_after ex.
Proof.
  intros db.
  apply (@worker_tick_drains_approved_actions
           Sample.lib Sample.manager nat (Sample.handler 9) db 0%nat).
  simpl. repeat constructor; simpl; intuition discriminate.
Defined.

(** ** Dispatch *)

(** X11.  An ALLOCATE action whose deployment id or amount does not parse,
    and a REALLOCATE action whose amount does not parse, are rejected by
    [takeAction] before any collaborator is called: the dispatch throws the
    parser's error, makes no call and leaves the world as it was. *)
Theorem takeAction_rejects_unparseable_parameters :
  forall (lib : Lib) (am : AllocationManagerOps) (W : Type) (h : Handler W)
         (w : W) (a : Action) (e : Error),
    (type a = ActionType.ALLOCATE ->
     SubgraphDeploymentID_new lib (deploymentID a) = inl e ->
     run h (takeAction lib am a) w = ([], inl e, w)) /\
    (type a = ActionType.ALLOCATE ->
     forall d,
       SubgraphDeploymentID_new lib (deploymentID a) = inr d ->
       BigNumber_from lib (amount a) = inl e ->
       run h (takeAction lib am a) w = ([], inl e, w)) /\
    (type a = ActionType.REALLOCATE ->
     BigNumber_from lib (amount a) = inl e ->
     run h (takeAction lib am a) w = ([], inl e, w)).
Proof.
  intros lib am W h w a e. unfold takeAction. split; [| split].
  - intros Ht Hd. rewrite Ht, Hd. reflexivity.
  - intros Ht d Hd Hz. rewrite Ht, Hd, Hz. reflexivity.
  - intros Ht Hz. rewrite Ht, Hz. reflexivity.
Qed.

Lemma takeAction_rejects_unparseable_parameters_witness :
  let noDeployment :=
    Sample.action 1 ActionType.ALLOCATE None None (Some "10000") APPROVED in
  let noAmount :=
    Sample.action 2 ActionType.ALLOCATE (Some "QmB") None None APPROVED in
  let badAmount :=
    Sample.action 3 ActionType.REALLOCATE None (Some "0xa1") (Some "x")
                  APPROVED in
  run (Sample.handler 9) (takeAction Sample.lib Sample.manager noDeployment)
      0%nat
  = ([], inl (External "Invalid subgraph deployment ID"), 0%nat) /\
  run (Sample.handler 9) (takeAction Sample.lib Sample.manager noAmount) 0%nat
  = ([], inl (External "invalid BigNumber string"), 0%nat) /\
  run (Sample.handler 9) (takeAction Sample.lib Sample.manager badAmount) 0%nat
  = ([], inl (External "invalid BigNumber string"), 0%nat).
Proof.
  intros noDeployment noAmount badAmount.
  split; [| split].
  - apply (proj1 (takeAction_rejects_unparseable_parameters
                    Sample.lib Sample.manager (Sample.handler 9) 0%nat
                    noDeployment
                    (External "Invalid subgraph deployment ID")));
      reflexivity.
  - apply (proj1 (proj2 (takeAction_rejects_unparseable_parameters
                           Sample.lib Sample.manager (Sample.handler 9) 0%nat
                           noAmount (External "invalid BigNumber string")))
             eq_refl Sample.deploymentB);
      reflexivity.
  - apply (proj2 (proj2 (takeAction_rejects_unparseable_parameters
                           Sample.lib Sample.manager (Sample.handler 9) 0%nat
                           badAmount (External "invalid BigNumber string"))));
      reflexivity.
Defined.

(** X12.  From the command line to the allocation manager: an input built by
    [buildActionInput], once queued as a row, is dispatched by [takeAction]
    with [target] as the deployment (ALLOCATE) or the allocation id (the
    others), [param1] as the amount (ALLOCATE, REALLOCATE) or the POI
    (UNALLOCATE), [param2] as the POI (REALLOCATE) or the force flag
    (UNALLOCATE), and [param3] as the force flag (REALLOCATE). *)
Theorem built_input_reaches_manager_with_its_parameters :
  forall (validate : list (string * option string) -> list string -> result unit)
         (lib : Lib) (am : AllocationManagerOps)
         (params : GenericActionInputParams) (source reason : string)
         (status : ActionStatus) (priority i : Z) (input : ActionInput),
    (buildActionInput validate ActionType.ALLOCATE params source reason status
                      priority = inr (Some input) ->
     forall d z,
       SubgraphDeploymentID_new lib (target params) = inr d ->
       BigNumber_from lib (param1 params) = inr z ->
       takeAction lib am (row_of_input i input)
       = bind (am_allocate am d z None) (fun r => Ret (Created r))) /\
    (buildActionInput validate ActionType.UNALLOCATE params source reason status
                      priority = inr (Some input) ->
     takeAction lib am (row_of_input i input)
     = bind (am_unallocate am (non_null (target params)) (param1 params)
                           (is_true_string (param2 params)))
            (fun r => Ret (ClosedResult r))) /\
    (buildActionInput validate ActionType.REALLOCATE params source reason status
                      priority = inr (Some input) ->
     forall z,
       BigNumber_from lib (param1 params) = inr z ->
       takeAction lib am (row_of_input i input)
       = bind (am_reallocate am (non_null (target params)) (param2 params) z
                             (is_true_string (param3 params)))
              (fun r => Ret (Reallocated r))) /\
    (buildActionInput validate ActionType.COLLECT params source reason status
                      priority = inr (Some input) ->
     takeAction lib am (row_of_input i input)
     = bind (am_collect am (non_null (target params)))
            (fun r => Ret (Collected r))).
Proof.
  intros validate lib am params source reason status priority i input.
  unfold buildActionInput.
  split; [| split; [| split]].
  - destruct (validateActionInput validate ActionType.ALLOCATE params);
      [discriminate |].
    simpl. intros H d z Hd Hz. inversion H; subst input.
    unfold takeAction. simpl. rewrite Hd, Hz. reflexivity.
  - destruct (validateActionInput validate ActionType.UNALLOCATE params);
      [discriminate |].
    simpl. intros H. inversion H; subst input. reflexivity.
  - destruct (validateActionInput validate ActionType.REALLOCATE params);
      [discriminate |].
    simpl. intros H z Hz. inversion H; subst input.
    unfold takeAction. simpl. rewrite Hz. reflexivity.
  - destruct (validateActionInput validate ActionType.COLLECT params);
      [discriminate |].
    simpl. intros H. inversion H; subst input. reflexivity.
Qed.

Lemma built_input_reaches_manager_with_its_parameters_witness :
  let params :=
    mkParams (Some "0xa1") (Some "27000") (Some "0xpoi") (Some "true") in
  let input :=
    mkActionInput ActionType.REALLOCATE None (Some "0xa1") (Some "27000")
                  (Some "0xpoi") (Some true) "indexerCLI" "manual" QUEUED
                  (Some 0) in
  takeAction Sample.lib Sample.manager (row_of_input 1 input)
  = bind (am_reallocate Sample.manager "0xa1" (Some "0xpoi") 27000 true)
         (fun r => Ret (Reallocated r)).
Proof.
  intros params input.
  apply (proj1 (proj2 (proj2
           (built_input_reaches_manager_with_its_parameters
              validateRequiredParams_spec Sample.lib Sample.manager params
              "indexerCLI" "manual" QUEUED 0 1 input))));
    reflexivity.
Defined.

(** ** AllocationManager: what reaches the chain *)

Lemma transcript_calls (W : Type) (h : Handler W) (R : Type) (p : Prog R)
      (w : W) :
  map call_of (transcript h p w) = trace_of (run h p w).
Proof.
  revert w. induction p as [r | e | X c k IH]; intros w; simpl; try reflexivity.
  destruct (h X c w) as [r w1]. specialize (IH r w1).
  destruct (run h (k r) w1) as [[tr res] w2]. simpl in *. now rewrite IH.
Qed.

(** Case analysis along a run: on the answer of the next call, and on the
    next test of the program. *)
Ltac ask h :=
  match goal with
  | |- context [h ?X ?c ?w] => destruct (h X c w) as [[? | ?] ?]
  | H : context [h ?X ?c ?w] |- _ => destruct (h X c w) as [[? | ?] ?]
  end.

Ltac branch :=
  match goal with
  | |- context [toAddress ?l ?x] => destruct (toAddress l x) eqn:?
  | |- context [find ?p ?l] => destruct (find p l) eqn:?
  | |- context [if ?b then _ else _] => destruct b eqn:?
  | |- context [find_created ?ev] =>
      destruct (find_created ev) as [[[? ?] ?] |] eqn:?
  | |- context [find_closed ?ev] =>
      destruct (find_closed ev) as [[[? ?] ?] |] eqn:?
  | |- context [uniqueAllocationID ?l ?m ?e ?d ?x] =>
      destruct (uniqueAllocationID l m e d x) eqn:?
  | |- context [match ?r with
                | Paused => _ | Unauthorized => _ | Receipt _ _ => _
                end] => destruct r
  end.

Ltac tidy :=
  repeat match goal with
         | H : negb (?x =? _) = false |- _ =>
             apply negb_false_iff, Z.eqb_eq in H; subst x
         | H : (_ <? _) = false |- _ => apply Z.ltb_ge in H
         | H : (_ =? _) = false |- _ => apply Z.eqb_neq in H
         end.

Ltac by_unique_id :=
  match goal with
  | H : uniqueAllocationID _ _ _ _ _ = _ |- _ => now rewrite H
  end.

(** X13.  [allocate] hands at most one transaction to the transaction
    manager, and only after every check has passed: the network monitor
    reported no active allocation of the deployment, the amount is positive
    and within the free stake the staking contract reported, and the derived
    allocation id was read as [Null] on chain.  The transaction is
    [allocateFrom] for the indexer, the deployment, that amount and that id. *)
Theorem allocate_submits_only_after_all_checks :
  forall (lib : Lib) (indexer mnemonic : string) (W : Type) (h : Handler W)
         (w : W) (deployment : SubgraphDeploymentID) (amount : Z)
         (indexNode : option string),
    let t := transcript h (allocate lib indexer mnemonic deployment amount
                                    indexNode) w in
    submissions t = [] \/
    exists activeAllocations currentEpoch freeStake allocationId proof,
      active_reports t = [activeAllocations] /\
      epoch_reads t = [currentEpoch] /\
      capacity_reads t = [freeStake] /\
      state_reads t = [(allocationId, 0)] /\
      submissions t
      = [AllocateFrom indexer (bytes32 deployment) amount allocationId proof] /\
      allocationId
      = snd (uniqueAllocationID lib mnemonic currentEpoch deployment
                                (map alloc_id activeAllocations)) /\
      find (fun a => (deployment_toString (sd_id (subgraphDeployment a))
                      =? deployment_toString deployment)%string)
           activeAllocations = None /\
      0 < amount <= freeStake.
Proof.
  intros lib indexer mnemonic W h w deployment amount indexNode t. subst t.
  unfold allocate. simpl.
  repeat (first [ask h | branch]; simpl); tidy.
  all: try (left; reflexivity).
  all: right; do 5 eexists; repeat split; try reflexivity; try eassumption;
    try lia.
  all: by_unique_id.
Qed.

(** X14.  When [allocate] resolves, exactly one transaction was submitted,
    its receipt carries the [AllocationCreated] event whose allocation id is
    returned, that id was handed to the receipt collector, and the indexing
    rule of the deployment was upserted once, to ALWAYS with the allocated
    amount. *)
Theorem allocate_success_postcondition :
  forall (lib : Lib) (indexer mnemonic : string) (W : Type) (h : Handler W)
         (w : W) (deployment : SubgraphDeploymentID) (amount : Z)
         (indexNode : option string) (r : CreateAllocationResult),
    let p := allocate lib indexer mnemonic deployment amount indexNode in
    outcome_of (run h p w) = inr r ->
    r = mkCreateResult (ipfsHash deployment) (cr_allocation r)
                       (formatGRT lib amount) /\
    (exists allocationId proof,
        submissions (transcript h p w)
        = [AllocateFrom indexer (bytes32 deployment) amount allocationId proof])
    /\
    (exists events hash tokens epoch,
        receipts (transcript h p w) = [Receipt events hash] /\
        find_created events = Some (cr_allocation r, tokens, epoch)) /\
    In (CallOf (RememberAllocations [cr_allocation r])) (trace_of (run h p w)) /\
    rule_upserts (transcript h p w)
    = [mkRule (ipfsHash deployment) (Some (BigNumber_toString lib amount))
              ALWAYS].
Proof.
  intros lib indexer mnemonic W h w deployment amount indexNode r p. subst p.
  unfold allocate, outcome_of, trace_of. simpl.
  repeat (first [ask h | branch]; simpl); try discriminate.
  intros H. inversion H; subst r; clear H. simpl.
  split; [reflexivity |]. split; [do 2 eexists; reflexivity |].
  split; [do 4 eexists; split; [reflexivity | eassumption] |].
  split; [| reflexivity].
  simpl. auto 20.
Qed.

Lemma allocate_success_postcondition_witness :
  let p := allocate Sample.lib "0xindexer" "mnemonic" Sample.deploymentB 800
                    None in
  let r := mkCreateResult "QmB" "0xnew" "GRT" in
  r = mkCreateResult "QmB" (cr_allocation r) "GRT" /\
  (exists allocationId proof,
      submissions (transcript (Sample.handler 9) p 0%nat)
      = [AllocateFrom "0xindexer" "0xbb" 800 allocationId proof]) /\
  (exists events hash tokens epoch,
      receipts (transcript (Sample.handler 9) p 0%nat) = [Receipt events hash] /\
      find_created events = Some (cr_allocation r, tokens, epoch)) /\
  In (CallOf (RememberAllocations [cr_allocation r]))
     (trace_of (run (Sample.handler 9) p 0%nat)) /\
  rule_upserts (transcript (Sample.handler 9) p 0%nat)
  = [mkRule "QmB" (Some "tokens") ALWAYS].
Proof.
  intros p r.
  apply (@allocate_success_postcondition
           Sample.lib "0xindexer" "mnemonic" nat (Sample.handler 9) 0%nat
           Sample.deploymentB 800 None r).
  reflexivity.
Defined.

(** X15.  The off-chain books (indexing rules, receipt collector) are touched
    only after the transaction manager returned a receipt with the expected
    event: [AllocationCreated] for [allocate], [AllocationClosed] for
    [unallocate], both for [reallocate].  A paused network, an unauthorized
    operator, a rejected submission or a receipt without the event leave
    them alone. *)
Theorem books_change_only_after_confirmed_transaction :
  forall (lib : Lib) (indexer mnemonic : string) (W : Type) (h : Handler W)
         (w : W),
    (forall deployment amount indexNode,
        let p := allocate lib indexer mnemonic deployment amount indexNode in
        existsb is_bookkeeping (trace_of (run h p w)) = false \/
        exists events hash,
          receipts (transcript h p w) = [Receipt events hash] /\
          find_created events <> None) /\
    (forall allocationID poi force,
        let p := unallocate lib allocationID poi force in
        existsb is_bookkeeping (trace_of (run h p w)) = false \/
        exists events hash,
          receipts (transcript h p w) = [Receipt events hash] /\
          find_closed events <> None) /\
    (forall allocationID poi amount force,
        let p := reallocate lib indexer mnemonic allocationID poi amount force in
        existsb is_bookkeeping (trace_of (run h p w)) = false \/
        exists events hash,
          receipts (transcript h p w) = [Receipt events hash] /\
          find_created events <> None /\ find_closed events <> None).
Proof.
  intros lib indexer mnemonic W h w. split; [| split].
  - intros deployment amount indexNode p. subst p.
    unfold allocate, trace_of. simpl.
    repeat (first [ask h | branch]; simpl).
    all: try (left; reflexivity).
    all: right; do 2 eexists; split; [reflexivity | congruence].
  - intros allocationID poi force p. subst p.
    unfold unallocate, trace_of. simpl.
    repeat (first [ask h | branch]; simpl).
    all: try (left; reflexivity).
    all: right; do 2 eexists; split; [reflexivity | congruence].
  - intros allocationID poi amount force p. subst p.
    unfold reallocate, trace_of. simpl.
    repeat (first [ask h | branch]; simpl).
    all: try (left; reflexivity).
    all: right; do 2 eexists; split; [reflexivity | split; congruence].
Qed.

(** X16.  [unallocate] reports every failure as IE015 around its cause,
    except a failure of the network monitor to return the allocation, which
    is passed on as it is and ends the call after that one query. *)
Theorem unallocate_wraps_failures_as_IE015 :
  forall (lib : Lib) (W : Type) (h : Handler W) (w : W)
         (allocationID : string) (poi : option string) (force : bool),
    let o := run h (unallocate lib allocationID poi force) w in
    match h _ (MonitorAllocation allocationID) w with
    | (inl e, w1) => o = ([CallOf (MonitorAllocation allocationID)], inl e, w1)
    | (inr _, _) =>
        match outcome_of o with
        | inl e => exists cause, e = IndexerError IE015 cause
        | inr _ => True
        end
    end.
Proof.
  intros lib W h w allocationID poi force o. subst o.
  unfold unallocate. rewrite run_bind, run_await.
  destruct (h _ (MonitorAllocation allocationID) w) as [[e | a] w1];
    cbn [fst snd]; [reflexivity |].
  rewrite run_try_catch.
  match goal with
  | |- context [run h ?p w1] => destruct (run h p w1) as [[tr [e | r]] w2]
  end; simpl.
  - eexists. reflexivity.
  - exact I.
Qed.

(** X17.  [unallocate] hands at most one transaction to the transaction
    manager, [closeAllocation] of the allocation the monitor returned with
    the POI the monitor resolved, and only after the allocation was found
    not to be of the current epoch and was read as [Active] on chain. *)
Theorem unallocate_submits_only_after_all_checks :
  forall (lib : Lib) (W : Type) (h : Handler W) (w : W)
         (allocationID : string) (poi : option string) (force : bool),
    let t := transcript h (unallocate lib allocationID poi force) w in
    submissions t = [] \/
    exists allocation currentEpoch allocationPOI,
      allocation_reads t = [allocation] /\
      epoch_reads t = [currentEpoch] /\
      poi_reads t = [allocationPOI] /\
      state_reads t = [(alloc_id allocation, 1)] /\
      submissions t = [CloseAllocation (alloc_id allocation) allocationPOI] /\
      createdAtEpoch allocation <> currentEpoch.
Proof.
  intros lib W h w allocationID poi force t. subst t.
  unfold unallocate. simpl.
  repeat (first [ask h | branch]; simpl); tidy.
  all: try (left; reflexivity).
  all: right; do 3 eexists; repeat split; try reflexivity; try eassumption.
Qed.

(** X18.  When [unallocate] resolves, the one transaction's receipt carries
    the [AllocationClosed] event whose allocation id and tokens are returned;
    the rewards returned are those of the [RewardsAssigned] event, zero when
    the receipt has none; the receipt collector was asked to collect for the
    allocation and its answer is returned; and the indexing rule of the
    allocation's deployment was upserted once, to OFFCHAIN. *)
Theorem unallocate_success_postcondition :
  forall (lib : Lib) (W : Type) (h : Handler W) (w : W)
         (allocationID : string) (poi : option string) (force : bool)
         (r : CloseAllocationResult),
    let p := unallocate lib allocationID poi force in
    outcome_of (run h p w) = inr r ->
    exists allocation events hash closedTokens epoch,
      allocation_reads (transcript h p w) = [allocation] /\
      receipts (transcript h p w) = [Receipt events hash] /\
      find_closed events = Some (cl_allocation r, closedTokens, epoch) /\
      cl_allocatedTokens r = formatGRT lib closedTokens /\
      cl_indexingRewards r = formatGRT lib (find_rewards events) /\
      In (CallOf (CollectReceipts allocation)) (trace_of (run h p w)) /\
      rule_upserts (transcript h p w)
      = [mkRule (ipfsHash (sd_id (subgraphDeployment allocation))) None
                OFFCHAIN].
Proof.
  intros lib W h w allocationID poi force r p. subst p.
  unfold unallocate, outcome_of, trace_of. simpl.
  repeat (first [ask h | branch]; simpl); try discriminate.
  intros H. inversion H; subst r; clear H. simpl.
  do 5 eexists.
  split; [reflexivity |]. split; [reflexivity |]. split; [eassumption |].
  split; [reflexivity |]. split; [reflexivity |]. split; [| reflexivity].
  simpl. auto 20.
Qed.

Lemma unallocate_success_postcondition_witness :
  let p := unallocate Sample.lib "0xa1" None false in
  let r := mkCloseResult "0xa1" "GRT" "GRT" true in
  exists allocation events hash closedTokens epoch,
    allocation_reads (transcript (Sample.handler 9) p 0%nat) = [allocation] /\
    receipts (transcript (Sample.handler 9) p 0%nat) = [Receipt events hash] /\
    find_closed events = Some (cl_allocation r, closedTokens, epoch) /\
    cl_allocatedTokens r = formatGRT Sample.lib closedTokens /\
    cl_indexingRewards r = formatGRT Sample.lib (find_rewards events) /\
    In (CallOf (CollectReceipts allocation))
       (trace_of (run (Sample.handler 9) p 0%nat)) /\
    rule_upserts (transcript (Sample.handler 9) p 0%nat)
    = [mkRule (ipfsHash (sd_id (subgraphDeployment allocation))) None OFFCHAIN].
Proof.
  intros p r.
  apply (@unallocate_success_postcondition
           Sample.lib nat (Sample.handler 9) 0%nat "0xa1" None false r).
  reflexivity.
Defined.

(** X19.  [reallocate] hands at most one transaction to the transaction
    manager, [closeAndAllocate] from the allocation found among the active
    ones to the derived new id for the requested amount, and only after every
    check has passed: the allocation is not of the current epoch and was read
    as [Active] on chain, the amount is positive and within the free stake
    reported plus the tokens of the allocation being closed, and the new id
    was read as [Null] on chain. *)
Theorem reallocate_submits_only_after_all_checks :
  forall (lib : Lib) (indexer mnemonic : string) (W : Type) (h : Handler W)
         (w : W) (allocationID : string) (poi : option string) (amount : Z)
         (force : bool),
    let t := transcript h (reallocate lib indexer mnemonic allocationID poi
                                      amount force) w in
    submissions t = [] \/
    exists activeAllocations allocationAddress allocation currentEpoch
           allocationPOI freeStake newAllocationId proof,
      active_reports t = [activeAllocations] /\
      epoch_reads t = [currentEpoch] /\
      poi_reads t = [allocationPOI] /\
      capacity_reads t = [freeStake] /\
      state_reads t = [(alloc_id allocation, 1); (newAllocationId, 0)] /\
      submissions t
      = [CloseAndAllocate (alloc_id allocation) allocationPOI indexer
                          (bytes32 (sd_id (subgraphDeployment allocation)))
                          amount newAllocationId proof] /\
      toAddress lib allocationID = inr allocationAddress /\
      find (fun a => (alloc_id a =? allocationAddress)%string)
           activeAllocations = Some allocation /\
      newAllocationId
      = snd (uniqueAllocationID lib mnemonic currentEpoch
                                (sd_id (subgraphDeployment allocation))
                                (map alloc_id activeAllocations)) /\
      createdAtEpoch allocation <> currentEpoch /\
      0 < amount <= freeStake + allocatedTokens allocation.
Proof.
  intros lib indexer mnemonic W h w allocationID poi amount force t. subst t.
  unfold reallocate. simpl.
  repeat (first [ask h | branch]; simpl); tidy.
  all: try (left; reflexivity).
  all: right; do 8 eexists; repeat split; try reflexivity; try eassumption;
    try lia.
  all: by_unique_id.
Qed.

(** X20.  [reallocate] stops after the query of the active allocations,
    with no further call, in three cases: when the query fails, with IE010
    around the cause; when the given id is not an address, with the error
    [toAddress] throws, as it is; and when it is an address that no active
    allocation has, with an error naming the id. *)
Theorem reallocate_needs_an_active_allocation :
  forall (lib : Lib) (indexer mnemonic : string) (W : Type) (h : Handler W)
         (w w1 : W) (allocationID : string) (poi : option string) (amount : Z)
         (force : bool),
    let o := run h (reallocate lib indexer mnemonic allocationID poi amount
                               force) w in
    (forall e,
        h _ (SubgraphActiveAllocations indexer) w = (inl e, w1) ->
        o = ([CallOf (SubgraphActiveAllocations indexer)],
             inl (IndexerError IE010 e), w1)) /\
    (forall activeAllocations e,
        h _ (SubgraphActiveAllocations indexer) w = (inr activeAllocations, w1) ->
        toAddress lib allocationID = inl e ->
        o = ([CallOf (SubgraphActiveAllocations indexer)], inl e, w1)) /\
    (forall activeAllocations allocationAddress,
        h _ (SubgraphActiveAllocations indexer) w = (inr activeAllocations, w1) ->
        toAddress lib allocationID = inr allocationAddress ->
        (forall a, In a activeAllocations -> alloc_id a <> allocationAddress) ->
        o = ([CallOf (SubgraphActiveAllocations indexer)],
             inl (NoActiveAllocation allocationID), w1)).
Proof.
  intros lib indexer mnemonic W h w w1 allocationID poi amount force o.
  subst o. unfold reallocate. simpl. split; [| split].
  - intros e He. rewrite He. reflexivity.
  - intros activeAllocations e Hq Haddr. rewrite Hq. simpl.
    rewrite Haddr. reflexivity.
  - intros activeAllocations allocationAddress Hq Haddr Hnone.
    rewrite Hq. simpl. rewrite Haddr. simpl.
    destruct (find _ activeAllocations) as [a |] eqn:Hfind; [| reflexivity].
    apply find_some in Hfind. destruct Hfind as [Hin Heq].
    apply String.eqb_eq in Heq. now apply Hnone in Hin.
Qed.

Lemma reallocate_needs_an_active_allocation_witness :
  run (Sample.handler 9)
      (reallocate Sample.lib "0xindexer" "mnemonic"
                  "0x0000000000000000000000000000000000000001" None 100 false)
      0%nat
  = ([CallOf (SubgraphActiveAllocations "0xindexer")],
     inl (NoActiveAllocation "0x0000000000000000000000000000000000000001"),
     1%nat) /\
  run (Sample.handler 9)
      (reallocate Sample.lib "0xindexer" "mnemonic" "0xother" None 100 false)
      0%nat
  = ([CallOf (SubgraphActiveAllocations "0xindexer")],
     inl (External "invalid address"), 1%nat).
Proof.
  split.
  - apply (proj2 (proj2 (@reallocate_needs_an_active_allocation
                           Sample.lib "0xindexer" "mnemonic" nat
                           (Sample.handler 9) 0%nat 1%nat
                           "0x0000000000000000000000000000000000000001" None
                           100 false))
                 [Sample.allocationA]
                 "0x0000000000000000000000000000000000000001").
    + reflexivity.
    + reflexivity.
    + intros a [Ha | []]. subst a. discriminate.
  - apply (proj1 (proj2 (@reallocate_needs_an_active_allocation
                           Sample.lib "0xindexer" "mnemonic" nat
                           (Sample.handler 9) 0%nat 1%nat "0xother" None 100
                           false))
                 [Sample.allocationA] (External "invalid address"));
      reflexivity.
Defined.

(** X21.  When [reallocate] resolves, the one transaction's receipt carries
    both the [AllocationCreated] and the [AllocationClosed] event, whose
    allocation ids are returned as created and closed; the receipt collector
    was asked to collect for the closed allocation; and the indexing rule of
    its deployment was upserted once, to ALWAYS with the new amount. *)
Theorem reallocate_success_postcondition :
  forall (lib : Lib) (indexer mnemonic : string) (W : Type) (h : Handler W)
         (w : W) (allocationID : string) (poi : option string) (amount : Z)
         (force : bool) (r : ReallocateAllocationResult),
    let p := reallocate lib indexer mnemonic allocationID poi amount force in
    outcome_of (run h p w) = inr r ->
    exists activeAllocations allocationAddress allocation events hash
           createdTokens e1 t2 e2,
      active_reports (transcript h p w) = [activeAllocations] /\
      toAddress lib allocationID = inr allocationAddress /\
      find (fun a => (alloc_id a =? allocationAddress)%string)
           activeAllocations = Some allocation /\
      receipts (transcript h p w) = [Receipt events hash] /\
      find_created events = Some (re_createdAllocation r, createdTokens, e1) /\
      find_closed events = Some (re_closedAllocation r, t2, e2) /\
      re_createdAllocationStake r = formatGRT lib createdTokens /\
      re_indexingRewardsCollected r = formatGRT lib (find_rewards events) /\
      In (CallOf (CollectReceipts allocation)) (trace_of (run h p w)) /\
      rule_upserts (transcript h p w)
      = [mkRule (ipfsHash (sd_id (subgraphDeployment allocation)))
                (Some (BigNumber_toString lib amount)) ALWAYS].
Proof.
  intros lib indexer mnemonic W h w allocationID poi amount force r p. subst p.
  unfold reallocate, outcome_of, trace_of. simpl.
  repeat (first [ask h | branch]; simpl); try discriminate.
  intros H. inversion H; subst r; clear H. simpl.
  do 9 eexists.
  split; [reflexivity |]. split; [reflexivity |]. split; [eassumption |].
  split; [reflexivity |].
  split; [eassumption |]. split; [eassumption |].
  split; [reflexivity |]. split; [reflexivity |]. split; [| reflexivity].
  simpl. auto 20.
Qed.

Lemma reallocate_success_postcondition_witness :
  let p := reallocate Sample.lib "0xindexer" "mnemonic" "0xa1" None 1500 false in
  let r := mkReallocResult "0xa1" "GRT" true "0xnew" "GRT" in
  exists activeAllocations allocationAddress allocation events hash
         createdTokens e1 t2 e2,
    active_reports (transcript (Sample.handler 9) p 0%nat) = [activeAllocations]
    /\
    toAddress Sample.lib "0xa1" = inr allocationAddress /\
    find (fun a => (alloc_id a =? allocationAddress)%string)
         activeAllocations = Some allocation /\
    receipts (transcript (Sample.handler 9) p 0%nat) = [Receipt events hash] /\
    find_created events = Some (re_createdAllocation r, createdTokens, e1) /\
    find_closed events = Some (re_closedAllocation r, t2, e2) /\
    re_createdAllocationStake r = formatGRT Sample.lib createdTokens /\
    re_indexingRewardsCollected r = formatGRT Sample.lib (find_rewards events) /\
    In (CallOf (CollectReceipts allocation))
       (trace_of (run (Sample.handler 9) p 0%nat)) /\
    rule_upserts (transcript (Sample.handler 9) p 0%nat)
    = [mkRule (ipfsHash (sd_id (subgraphDeployment allocation)))
              (Some (BigNumber_toString Sample.lib 1500)) ALWAYS].
Proof.
  intros p r.
  apply (@reallocate_success_postcondition
           Sample.lib "0xindexer" "mnemonic" nat (Sample.handler 9) 0%nat
           "0xa1" None 1500 false r).
  reflexivity.
Defined.

(** X22.  [collect] makes no chain call and submits no transaction: it asks
    the network monitor for the allocation and the receipt collector to
    collect for it, and returns the collector's answer; a failure of either
    is passed on as it is. *)
Theorem collect_only_asks_monitor_and_collector :
  forall (W : Type) (h : Handler W) (w : W) (allocationID : string),
    let o := run h (collect allocationID) w in
    existsb is_chain_call (trace_of o) = false /\
    match h _ (MonitorAllocation allocationID) w with
    | (inl e, w1) => o = ([CallOf (MonitorAllocation allocationID)], inl e, w1)
    | (inr allocation, w1) =>
        o = ([CallOf (MonitorAllocation allocationID);
              CallOf (CollectReceipts allocation)],
             fst (h _ (CollectReceipts allocation) w1),
             snd (h _ (CollectReceipts allocation) w1))
    end.
Proof.
  intros W h w allocationID o. subst o. unfold collect, trace_of. simpl.
  destruct (h _ (MonitorAllocation allocationID) w) as [[e | a] w1]; simpl.
  - split; reflexivity.
  - destruct (h _ (CollectReceipts a) w1) as [[e | b] w2]; simpl;
      split; reflexivity.
Qed.

(** X23.  [allocate] of a positive amount beyond the free stake the staking
    contract reports is refused with IE013 right after the capacity read:
    the deployment is not handed to the index node and nothing is
    submitted. *)
Theorem allocate_rejects_amount_beyond_free_stake :
  forall (lib : Lib) (indexer mnemonic : string) (W : Type) (h : Handler W)
         (w w1 w2 w3 : W) (deployment : SubgraphDeploymentID) (amount : Z)
         (indexNode : option string) (activeAllocations : list Allocation)
         (currentEpoch freeStake : Z),
    h _ (MonitorAllocations Active) w = (inr activeAllocations, w1) ->
    find (fun a => (deployment_toString (sd_id (subgraphDeployment a))
                    =? deployment_toString deployment)%string)
         activeAllocations = None ->
    0 < amount ->
    h _ CurrentEpoch w1 = (inr currentEpoch, w2) ->
    h _ (GetIndexerCapacity indexer) w2 = (inr freeStake, w3) ->
    freeStake < amount ->
    run h (allocate lib indexer mnemonic deployment amount indexNode) w
    = ([CallOf (MonitorAllocations Active); CallOf CurrentEpoch;
        CallOf (GetIndexerCapacity indexer)],
       inl (IndexerError IE013 (InsufficientFreeStake amount freeStake)), w3).
Proof.
  intros lib indexer mnemonic W h w w1 w2 w3 deployment amount indexNode
         activeAllocations currentEpoch freeStake Hmon Hfind Hpos Hepoch Hcap
         Hlt.
  unfold allocate. simpl. rewrite Hmon. simpl. rewrite Hfind.
  destruct (amount <? 0) eqn:E1; [apply Z.ltb_lt in E1; lia |].
  destruct (amount =? 0) eqn:E2; [apply Z.eqb_eq in E2; lia |].
  simpl. rewrite Hepoch. simpl. rewrite Hcap. simpl.
  destruct (freeStake <? amount) eqn:E3; [reflexivity |].
  apply Z.ltb_ge in E3. lia.
Qed.

Lemma allocate_rejects_amount_beyond_free_stake_witness :
  run (Sample.handler 9)
      (allocate Sample.lib "0xindexer" "mnemonic" Sample.deploymentB 1001 None)
      0%nat
  = ([CallOf (MonitorAllocations Active); CallOf CurrentEpoch;
      CallOf (GetIndexerCapacity "0xindexer")],
     inl (IndexerError IE013 (InsufficientFreeStake 1001 1000)), 3%nat).
Proof.
  apply (@allocate_rejects_amount_beyond_free_stake
           Sample.lib "0xindexer" "mnemonic" nat (Sample.handler 9)
           0%nat 1%nat 2%nat 3%nat Sample.deploymentB 1001 None
           [Sample.allocationA] 9 1000);
    try reflexivity; lia.
Defined.

(** ** The workflow: approve, cancel, execute *)

Lemma update_status_keeps_key s ids db :
  NoDup (map id (rows db)) ->
  NoDup (map id (rows (snd (update_status s ids db)))).
Proof.
  intros Hnd.
  apply (Permutation_NoDup (Permutation_sym (update_status_ids s ids db)) Hnd).
Qed.

Lemma update_status_row s ids db r :
  In r (rows db) -> id_in ids r = true ->
  In (set_status s r) (rows (snd (update_status s ids db))).
Proof.
  intros Hr Hid. apply update_status_in. exists r. now rewrite Hid.
Qed.

(** X24.  An action that was approved is dispatched by the next tick of the
    worker and ends SUCCESS or FAILED: after [approve] of its id, the tick's
    first phase dispatches it, and afterwards the table holds its row with
    the outcome as its status. *)
Theorem approved_action_is_executed_by_next_tick :
  forall (lib : Lib) (am : AllocationManagerOps) (W : Type) (h : Handler W)
         (actionIDs : list Z) (db : Store) (w : W) (r : Action),
    NoDup (map id (rows db)) ->
    In r (rows db) ->
    id_in actionIDs r = true ->
    let ex := IndexerWorker.tick lib am h (snd (approveActions actionIDs db)) w in
    In (set_status APPROVED r) (map fst (phase1 ex)) /\
    (In (set_status SUCCESS r) (rows (store_after ex)) \/
     In (set_status FAILED r) (rows (store_after ex))).
Proof.
  intros lib am W h actionIDs db w r Hnd Hr Hid ex. subst ex.
  rewrite approveActions_store.
  set (db1 := snd (update_status APPROVED actionIDs db)).
  assert (Hnd1 : NoDup (map id (rows db1))).
  { unfold db1. now apply update_status_keeps_key. }
  assert (Hr1 : In (set_status APPROVED r) (rows db1)).
  { now apply update_status_row. }
  unfold IndexerWorker.tick.
  set (ids := map id (fetchActions (mkFilter None (Some APPROVED) None None) db1)).
  split.
  - rewrite executeActions_eq by exact Hnd1. simpl.
    rewrite outcomes_in_turn_actions. apply filter_In. split.
    + exact Hr1.
    + reflexivity.
  - destruct (executeActions_row_fate lib am h ids false db1 w _ Hnd1 Hr1)
      as [[Hs _] | [_ (ok & _ & H)]].
    + discriminate Hs.
    + rewrite set_status_twice in H. destruct ok; [left | right]; exact H.
Qed.

Lemma approved_action_is_executed_by_next_tick_witness :
  let queued :=
    Sample.action 1 ActionType.COLLECT None (Some "0xa1") None QUEUED in
  let other :=
    Sample.action 2 ActionType.COLLECT None (Some "0xa1") None QUEUED in
  let db := mkStore [queued; other] 3 in
  let ex := IndexerWorker.tick Sample.lib Sample.manager (Sample.handler 9)
                               (snd (approveActions [1] db)) 0%nat in
  In (set_status APPROVED queued) (map fst (phase1 ex)) /\
  (In (set_status SUCCESS queued) (rows (store_after ex)) \/
   In (set_status FAILED queued) (rows (store_after ex))).
Proof.
  intros queued other db.
  apply (@approved_action_is_executed_by_next_tick
           Sample.lib Sample.manager nat (Sample.handler 9) [1] db 0%nat
           queued).
  - simpl. repeat constructor; simpl; intuition discriminate.
  - left. reflexivity.
  - reflexivity.
Defined.

(** X25.  A canceled action is never dispatched: after [cancel] of its id,
    no [executeActions], whatever its ids and [force], dispatches it, and
    afterwards the table still holds its row as CANCELED. *)
Theorem canceled_action_is_never_dispatched :
  forall (lib : Lib) (am : AllocationManagerOps) (W : Type) (h : Handler W)
         (canceledIDs actionIDs : list Z) (force : bool) (db : Store) (w : W)
         (r : Action),
    NoDup (map id (rows db)) ->
    In r (rows db) ->
    id_in canceledIDs r = true ->
    let ex := executeActions lib am h actionIDs force
                             (snd (cancelActions canceledIDs db)) w in
    ~ In (id r) (dispatched_ids (phase1 ex ++ phase2 ex)) /\
    In (set_status CANCELED r) (rows (store_after ex)).
Proof.
  intros lib am W h canceledIDs actionIDs force db w r Hnd Hr Hid ex.
  subst ex. rewrite cancelActions_store.
  set (db1 := snd (update_status CANCELED canceledIDs db)).
  assert (Hnd1 : NoDup (map id (rows db1))).
  { unfold db1. now apply update_status_keeps_key. }
  assert (Hr1 : In (set_status CANCELED r) (rows db1)).
  { now apply update_status_row. }
  assert (Hsel : selected actionIDs force (set_status CANCELED r) = false).
  { unfold selected. simpl. now rewrite andb_false_r. }
  split.
  - intros Hin. apply dispatched_ids_in in Hin. destruct Hin as (d & Hd & Hdid).
    rewrite executeActions_eq in Hd by exact Hnd1. simpl in Hd.
    assert (Hb : In (fst d)
                    ((if force then [] else findAll_status APPROVED db1)
                     ++ filter (id_in actionIDs) (findAll_status QUEUED db1))).
    { rewrite <- (outcomes_in_turn_actions lib am h
                    (if force then [] else findAll_status APPROVED db1) w).
      rewrite <- (outcomes_in_turn_actions lib am h
                    (filter (id_in actionIDs) (findAll_status QUEUED db1))
                    (snd (outcomes_in_turn lib am h
                            (if force then [] else findAll_status APPROVED db1)
                            w))).
      rewrite <- map_app. now apply in_map. }
    apply selected_batches in Hb. destruct Hb as [Hrow Hs].
    assert (Heq : fst d = set_status CANCELED r).
    { apply (unique_row (rows db1)); auto. }
    rewrite Heq in Hs. congruence.
  - destruct (executeActions_row_fate lib am h actionIDs force db1 w _ Hnd1 Hr1)
      as [[_ H] | [Hs _]]; [exact H | congruence].
Qed.

Lemma canceled_action_is_never_dispatched_witness :
  let approved :=
    Sample.action 1 ActionType.COLLECT None (Some "0xa1") None APPROVED in
  let other :=
    Sample.action 2 ActionType.COLLECT None (Some "0xa1") None APPROVED in
  let db := mkStore [approved; other] 3 in
  let ex := executeActions Sample.lib Sample.manager (Sample.handler 9)
                           [1] false (snd (cancelActions [1] db)) 0%nat in
  ~ In (id approved) (dispatched_ids (phase1 ex ++ phase2 ex)) /\
  In (set_status CANCELED approved) (rows (store_after ex)).
Proof.
  intros approved other db.
  apply (@canceled_action_is_never_dispatched
           Sample.lib Sample.manager nat (Sample.handler 9) [1] [1] false db
           0%nat approved).
  - simpl. repeat constructor; simpl; intuition discriminate.
  - left. reflexivity.
  - reflexivity.
Defined.

Lemma fetchActions_exact_match_on_set_fields_witness :
  let queued :=
    Sample.action 1 ActionType.COLLECT None (Some "0xa1") None QUEUED in
  let approved :=
    Sample.action 2 ActionType.COLLECT None (Some "0xa1") None APPROVED in
  let db := mkStore [queued; approved] 3 in
  In queued
     (fetchActions (mkFilter None (Some QUEUED) (Some "indexerAgent") None) db).
Proof.
  intros queued approved db.
  apply (proj1 (fetchActions_exact_match_on_set_fields
                  (mkFilter None (Some QUEUED) (Some "indexerAgent") None) db)
               queued).
  split; [left; reflexivity |].
  repeat split; intros x Hx; inversion Hx; reflexivity.
Defined.
